(** * db_manager: schema-driven CSV coercion, validation and table sink

    A shallow embedding of [data_processor.py] (class [CSVProcessor]),
    [validator.py] (class [Validator]) and the table-creation part of
    [database_manager.py] (class [DatabaseManager]), followed by the
    properties of the coercion rules, of the validator, of the row loop of
    [process_csv] and of [ensure_table_exists].

    Conventions of the embedding.
    - A Python value that a cell or a typed row can hold is a [pyval].
      A [str] is a Rocq [string]: a sequence of code points below 256.
    - A Python [float] is an IEEE-754 binary64 value, [spec_float] with
      precision 53 and maximal exponent 1024.
    - Code that logs, raises or calls the sink runs in the monad [M]: it
      threads a [world] (the log and the calls received by the sink) and
      returns either a value or the exception that propagates. *)

From Stdlib Require Import ZArith List String Ascii Bool Lia SpecFloat.
From stdpp Require Import gmap strings list.

Local Open Scope string_scope.
Local Open Scope list_scope.
Local Open Scope Z_scope.

(** ** Python values, exceptions *)

Module Py.

Inductive pyval : Type :=
| VNone
| VBool (b : bool)
| VInt (n : Z)
| VFloat (f : spec_float)
| VStr (s : string).

(** The payload of the [ValueError]s the program can meet. *)
Inductive value_error : Type :=
| EmptyCellFound                       (* "Empty cell found." *)
| CellShouldBeNumeric                  (* "Cell should be numeric." *)
| CellShouldBeBoolean                  (* "Cell should be boolean." *)
| UnexpectedEnumValue (cell : pyval) (allowed : list pyval)
| InvalidLiteralForInt (s : string)    (* int("3.5") *)
| ExceedsIntDigitLimit (s : string)    (* int of more than 4300 digits *)
| CouldNotConvertToFloat (s : string)  (* float("abc") *)
| CannotConvertFloatNaN.               (* int(float("nan")) *)

Inductive exn : Type :=
| ValueError (why : value_error)
| TypeError
| KeyError (key : string)
| OverflowError
| StopIteration
| ParserError
| DatabaseError.             (* any psycopg2 error *)

Inductive res (A : Type) : Type :=
| Ok (a : A)
| Raise (e : exn).
Arguments Ok {A} a.
Arguments Raise {A} e.

(** *** binary64 *)

Definition prec : Z := 53.
Definition emax : Z := 1024.

(** The double nearest to the integer [n] (ties to even); an infinity when
    [n] is out of range. *)
Definition float_of_Z (n : Z) : spec_float := binary_normalize prec emax n 0 false.

(** The double nearest to [num / den], for [0 < den]. *)
Definition float_of_ratio (num : Z) (den : Z) : spec_float :=
  match num with
  | Z0 => S754_zero false
  | Zpos p =>
      let '(m, e, l) := SFdiv_core_binary prec emax (Zpos p) 0 den 0 in
      binary_round_aux prec emax false m e l
  | Zneg p =>
      let '(m, e, l) := SFdiv_core_binary prec emax (Zpos p) 0 den 0 in
      binary_round_aux prec emax true m e l
  end.

Definition signed (s : bool) (m : positive) : Z := if s then Zneg m else Zpos m.

(** [n == f] for an [int] and a [float]: Python compares the exact values. *)
Definition float_eq_Z (f : spec_float) (n : Z) : bool :=
  match f with
  | S754_zero _ => n =? 0
  | S754_finite s m e =>
      if 0 <=? e then n =? signed s m * 2 ^ e
      else n * 2 ^ (- e) =? signed s m
  | S754_infinity _ | S754_nan => false
  end.

(** [int(f)]: truncation towards zero. *)
Definition float_trunc (f : spec_float) : res Z :=
  match f with
  | S754_zero _ => Ok 0
  | S754_finite s m e =>
      Ok (if 0 <=? e then signed s m * 2 ^ e else Z.quot (signed s m) (2 ^ (- e)))
  | S754_infinity _ => Raise OverflowError
  | S754_nan => Raise (ValueError CannotConvertFloatNaN)
  end.

(** *** Truth value and equality *)

(** [bool(v)], as used by [if not cell]. *)
Definition truthy (v : pyval) : bool :=
  match v with
  | VNone => false
  | VBool b => b
  | VInt n => negb (n =? 0)
  | VFloat f => negb (float_eq_Z f 0)
  | VStr s => negb (String.eqb s "")
  end.

Definition Z_of_bool (b : bool) : Z := if b then 1 else 0.

(** [a == b]. [bool] is a subclass of [int], so [True == 1] and [1 == 1.0];
    a [str] or [None] equals only a value of its own type. *)
Definition py_eq (a b : pyval) : bool :=
  match a, b with
  | VNone, VNone => true
  | VStr s, VStr t => String.eqb s t
  | VBool x, VBool y => Bool.eqb x y
  | VBool x, VInt n | VInt n, VBool x => n =? Z_of_bool x
  | VBool x, VFloat f | VFloat f, VBool x => float_eq_Z f (Z_of_bool x)
  | VInt n, VInt m => n =? m
  | VInt n, VFloat f | VFloat f, VInt n => float_eq_Z f n
  | VFloat f, VFloat g => SFeqb f g
  | _, _ => false
  end.

(** [x in l] for a list [l]: some element equals [x]. *)
Definition py_in (x : pyval) (l : list pyval) : bool := existsb (py_eq x) l.

Definition isinstance_int (v : pyval) : bool :=
  match v with VInt _ | VBool _ => true | _ => false end.
Definition isinstance_float (v : pyval) : bool :=
  match v with VFloat _ => true | _ => false end.
Definition isinstance_str (v : pyval) : bool :=
  match v with VStr _ => true | _ => false end.
Definition isinstance_bool (v : pyval) : bool :=
  match v with VBool _ => true | _ => false end.

(** *** Numeric literals: [int(s)] and [float(s)] for a [str] *)

Definition code (c : ascii) : Z := Z.of_N (N_of_ascii c).

(** The white space that [int] and [float] skip around a literal: the
    C white space (tab to carriage return, and the space) and, of the code
    points from 128 to 255, the two that CPython turns into a space before
    it parses (next line and no-break space). The separators 28 to 31 are
    not skipped, although [str.isspace] holds of them. *)
Definition is_space (c : ascii) : bool :=
  let n := code c in
  ((9 <=? n) && (n <=? 13)) || (n =? 32) || (n =? 133) || (n =? 160).

Definition is_digit (c : ascii) : bool :=
  let n := code c in (48 <=? n) && (n <=? 57).

Definition digit_value (c : ascii) : Z := code c - 48.

Fixpoint lstrip (l : list ascii) : list ascii :=
  match l with
  | c :: l' => if is_space c then lstrip l' else l
  | [] => []
  end.

Definition strip (l : list ascii) : list ascii := rev (lstrip (rev (lstrip l))).

(** A run of digits in which single underscores may separate digits
    (PEP 515). [take_digitpart acc cnt prev l] returns the value read, the
    number of digits read and the rest of the input; [prev] tells whether
    the previous character was a digit. A misplaced underscore is an error. *)
Fixpoint take_digitpart (acc : Z) (cnt : nat) (prev : bool) (l : list ascii)
  : option (Z * nat * list ascii) :=
  match l with
  | [] => if prev || Nat.eqb cnt 0 then Some (acc, cnt, []) else None
  | c :: l' =>
      if is_digit c then take_digitpart (10 * acc + digit_value c) (S cnt) true l'
      else if Ascii.eqb c "_" then
        if prev then
          match l' with
          | d :: _ => if is_digit d then take_digitpart acc cnt false l' else None
          | [] => None
          end
        else None
      else Some (acc, cnt, l)
  end.

Definition take_sign (l : list ascii) : bool * list ascii :=
  match l with
  | c :: l' =>
      if Ascii.eqb c "-" then (true, l')
      else if Ascii.eqb c "+" then (false, l')
      else (false, l)
  | [] => (false, [])
  end.

(** [sys.int_max_str_digits], at its default. *)
Definition int_max_str_digits : nat := 4300.

Inductive int_parse : Type :=
| IntValue (n : Z)
| IntTooManyDigits
| IntInvalid.

(** [int(s)], base 10: optional surrounding white space, an optional sign,
    then digits. A run of more than [int_max_str_digits] digits is refused
    once it has been read, whatever follows it; anything else that is not
    a run of digits, a decimal point included, is an invalid literal. *)
Definition parse_int (s : string) : int_parse :=
  let '(neg, l) := take_sign (strip (list_ascii_of_string s)) in
  match take_digitpart 0 0 false l with
  | Some (n, cnt, rest) =>
      if Nat.ltb int_max_str_digits cnt then IntTooManyDigits
      else
        match cnt, rest with
        | S _, [] => IntValue (if neg then - n else n)
        | _, _ => IntInvalid
        end
  | None => IntInvalid
  end.

(** The value of [int(s)] when it returns. *)
Definition int_of_literal (s : string) : option Z :=
  match parse_int s with
  | IntValue n => Some n
  | _ => None
  end.

Definition lower (c : ascii) : ascii :=
  let n := code c in
  if (65 <=? n) && (n <=? 90) then ascii_of_N (Z.to_N (n + 32)) else c.

Definition is_word (w : string) (l : list ascii) : bool :=
  String.eqb (string_of_list_ascii (map lower l)) w.

(** The double nearest to [(-1)^neg * m * 10^e10], for [0 <= m]. *)
Definition float_of_decimal (neg : bool) (m : Z) (e10 : Z) : spec_float :=
  if m =? 0 then S754_zero neg
  else
    let sm := if neg then - m else m in
    if 0 <=? e10 then float_of_Z (sm * 10 ^ e10)
    else float_of_ratio sm (10 ^ (- e10)).

(** [float(s)]: optional surrounding white space, an optional sign, then
    [inf], [infinity] or [nan] in any case, or a decimal number with an
    optional fraction and an optional exponent. *)
Definition float_of_literal (s : string) : option spec_float :=
  let '(neg, l) := take_sign (strip (list_ascii_of_string s)) in
  if is_word "inf" l || is_word "infinity" l then Some (S754_infinity neg)
  else if is_word "nan" l then Some S754_nan
  else
    match take_digitpart 0 0 false l with
    | None => None
    | Some (ip, ni, l2) =>
        let frac :=
          match l2 with
          | c :: l' => if Ascii.eqb c "." then take_digitpart 0 0 false l'
                       else Some (0, O, l2)
          | [] => Some (0, O, [])
          end in
        match frac with
        | None => None
        | Some (fp, nf, l3) =>
            if Nat.eqb (ni + nf) 0 then None
            else
              let mant := ip * 10 ^ Z.of_nat nf + fp in
              match l3 with
              | [] => Some (float_of_decimal neg mant (- Z.of_nat nf))
              | c :: l' =>
                  if Ascii.eqb (lower c) "e" then
                    let '(eneg, l4) := take_sign l' in
                    match take_digitpart 0 0 false l4 with
                    | Some (ex, S _, []) =>
                        Some (float_of_decimal neg mant
                                ((if eneg then - ex else ex) - Z.of_nat nf))
                    | _ => None
                    end
                  else None
              end
        end
    end.

(** [int(v)] *)
Definition py_int (v : pyval) : res Z :=
  match v with
  | VNone => Raise TypeError
  | VBool b => Ok (Z_of_bool b)
  | VInt n => Ok n
  | VFloat f => float_trunc f
  | VStr s =>
      match parse_int s with
      | IntValue n => Ok n
      | IntTooManyDigits => Raise (ValueError (ExceedsIntDigitLimit s))
      | IntInvalid => Raise (ValueError (InvalidLiteralForInt s))
      end
  end.

(** [float(v)] *)
Definition py_float (v : pyval) : res spec_float :=
  match v with
  | VNone => Raise TypeError
  | VBool b => Ok (float_of_Z (Z_of_bool b))
  | VInt n =>
      match float_of_Z n with
      | S754_infinity _ => Raise OverflowError
      | f => Ok f
      end
  | VFloat f => Ok f
  | VStr s =>
      match float_of_literal s with
      | Some f => Ok f
      | None => Raise (ValueError (CouldNotConvertToFloat s))
      end
  end.

End Py.

Import Py.

(** ** Regular expressions, as [re.match] uses them *)

Module Re.

Inductive regex : Type :=
| Void
| Eps
| Sym (p : ascii -> bool)
| Cat (r1 r2 : regex)
| Alt (r1 r2 : regex)
| Star (r : regex).

Definition Plus (r : regex) : regex := Cat r (Star r).
Definition Opt (r : regex) : regex := Alt r Eps.
Definition Lit (c : ascii) : regex := Sym (Ascii.eqb c).

(** [r{n}] *)
Fixpoint Rep (n : nat) (r : regex) : regex :=
  match n with
  | O => Eps
  | S n' => Cat r (Rep n' r)
  end.

Fixpoint nullable (r : regex) : bool :=
  match r with
  | Void => false
  | Eps => true
  | Sym _ => false
  | Cat r1 r2 => nullable r1 && nullable r2
  | Alt r1 r2 => nullable r1 || nullable r2
  | Star _ => true
  end.

(** Brzozowski derivative: what is left of [r] after reading [c]. *)
Fixpoint deriv (c : ascii) (r : regex) : regex :=
  match r with
  | Void | Eps => Void
  | Sym p => if p c then Eps else Void
  | Cat r1 r2 =>
      if nullable r1 then Alt (Cat (deriv c r1) r2) (deriv c r2)
      else Cat (deriv c r1) r2
  | Alt r1 r2 => Alt (deriv c r1) (deriv c r2)
  | Star r1 => Cat (deriv c r1) (Star r1)
  end.

(** [re.match(r, s) is not None]: some prefix of [s] matches [r]. *)
Fixpoint re_match (r : regex) (s : string) : bool :=
  nullable r ||
  match s with
  | EmptyString => false
  | String c s' => re_match (deriv c r) s'
  end.

(** [re.match(r + "$", s) is not None]: [$] holds at the end of [s] and
    just before a line feed that ends [s]. *)
Fixpoint re_match_dollar (r : regex) (s : string) : bool :=
  match s with
  | EmptyString => nullable r
  | String c s' =>
      (nullable r && Ascii.eqb c "010" && String.eqb s' "")
      || re_match_dollar (deriv c r) s'
  end.

End Re.

Import Re.

(** ** The schema *)

(** One entry of [schema["properties"]]: the keys the program reads.
    [None] stands for an absent key. *)
Record field_def : Type := {
  def_type : option string;          (* "type" *)
  def_format : option string;        (* "format" *)
  def_enum : option (list pyval)     (* "enum" *)
}.

(** [schema["properties"]] keeps its insertion order; [schema["required"]]
    is a list of names. *)
Record schema_t : Type := {
  properties : list (string * field_def);
  required : list string
}.

Definition keys (s : schema_t) : list string := map fst (properties s).

(** ** The world: log and sink *)

(** What [logging.error] receives, one constructor per message. *)
Inductive log_record : Type :=
| ErrParsingDatetime (cell : pyval) (e : exn)
| ErrEmptyCell
| ErrNotNumeric
| ErrNotBoolean
| ErrEnum (cell : pyval) (allowed : list pyval)
| ErrNoProcessingFunction (data_type : option string) (row_number : Z)
| ErrValidationFailed (row_number : Z) (row : list string)
| ErrRequiredMissing (key : string)
| ErrExpectedInteger (key : string) (value : pyval)
| ErrExpectedNumber (key : string) (value : pyval)
| ErrExpectedString (key : string) (value : pyval)
| ErrExpectedBoolean (key : string) (value : pyval)
| ErrInvalidEmail (key : string)
| ErrInvalidDatetime (key : string).

(** A batch: the [processed_data] list of tuples. *)
Abbreviation batch := (list (list pyval)).

Record world : Type := {
  logs : list log_record;      (* records logged so far, oldest first *)
  inserted : list batch        (* arguments of the calls of the sink's insert *)
}.

Definition world0 : world := {| logs := []; inserted := [] |}.

Definition M (A : Type) : Type := world -> res A * world.

Definition ret {A} (a : A) : M A := fun w => (Ok a, w).
Definition raise {A} (e : exn) : M A := fun w => (Raise e, w).
Definition bind {A B} (m : M A) (k : A -> M B) : M B :=
  fun w => match m w with
           | (Ok a, w') => k a w'
           | (Raise e, w') => (Raise e, w')
           end.
Definition lift {A} (r : res A) : M A := fun w => (r, w).
Definition logging_error (r : log_record) : M unit :=
  fun w => (Ok tt, {| logs := logs w ++ [r]; inserted := inserted w |}).

Declare Scope py_scope.
Delimit Scope py_scope with py.
Notation "'let*' x ':=' m 'in' k" := (bind m (fun x => k))
  (at level 10, x name, m at level 100, k at level 200) : py_scope.
Notation "m ';;' k" := (bind m (fun _ => k))
  (at level 100, k at level 200, right associativity) : py_scope.
Local Open Scope py_scope.

(** ** validator.py *)

Module Validator.

Definition not_at (c : ascii) : bool := negb (Ascii.eqb c "@").

(** [[^@]+@[^@]+\.[^@]+] *)
Definition email_pattern : regex :=
  Cat (Plus (Sym not_at))
 (Cat (Lit "@")
 (Cat (Plus (Sym not_at))
 (Cat (Lit ".")
      (Plus (Sym not_at))))).

Definition d : regex := Sym is_digit.
Definition sign_class (c : ascii) : bool := Ascii.eqb c "+" || Ascii.eqb c "-".

(** [^\d{4}-\d{2}-\d{2}T\d{2}:\d{2}:\d{2}(Z|[+-]\d{2}:\d{2})?$], without
    the final [$], which [re_match_dollar] supplies. *)
Definition datetime_pattern : regex :=
  Cat (Rep 4 d) (Cat (Lit "-") (Cat (Rep 2 d) (Cat (Lit "-") (Cat (Rep 2 d)
 (Cat (Lit "T")
 (Cat (Rep 2 d) (Cat (Lit ":") (Cat (Rep 2 d) (Cat (Lit ":") (Cat (Rep 2 d)
      (Opt (Alt (Lit "Z")
                (Cat (Sym sign_class)
                (Cat (Rep 2 d) (Cat (Lit ":") (Rep 2 d)))))))))))))))).

(** [re.match] raises [TypeError] on anything that is not a string. *)
Definition is_valid_email (email : pyval) : res bool :=
  match email with
  | VStr s => Ok (re_match email_pattern s)
  | _ => Raise TypeError
  end.

Definition is_valid_datetime (dt_str : pyval) : res bool :=
  match dt_str with
  | VStr s => Ok (re_match_dollar datetime_pattern s)
  | _ => Raise TypeError
  end.

Definition str_in (k : string) (l : list string) : bool := existsb (String.eqb k) l.

Definition is_format (fmt : option string) (name : string) : bool :=
  match fmt with
  | Some f => String.eqb f name
  | None => false
  end.

(** The body of the loop over [schema["properties"].items()], for one
    [(key, definition)]: [ret false] is [return False], [ret true] goes on
    to the next field. The [print] calls of the date-time branch write to
    the standard output and are left out. *)
Definition validate_field (row_dict : gmap string pyval) (req : list string)
    (key : string) (definition : field_def) : M bool :=
  if negb (bool_decide (is_Some (row_dict !! key))) && str_in key req then
    logging_error (ErrRequiredMissing key) ;; ret false
  else
    let value := default VNone (row_dict !! key) in
    match def_type definition with
    | None => raise (KeyError "type")
    | Some expected_type =>
        if String.eqb expected_type "integer" && negb (isinstance_int value) then
          logging_error (ErrExpectedInteger key value) ;; ret false
        else if String.eqb expected_type "number"
                && (negb (isinstance_float value) && negb (isinstance_int value)) then
          logging_error (ErrExpectedNumber key value) ;; ret false
        else if String.eqb expected_type "string" && negb (isinstance_str value) then
          logging_error (ErrExpectedString key value) ;; ret false
        else if String.eqb expected_type "boolean" && negb (isinstance_bool value) then
          logging_error (ErrExpectedBoolean key value) ;; ret false
        else
          let format_ := def_format definition in
          let* bad_email :=
            (if is_format format_ "email"
             then let* ok := lift (is_valid_email value) in ret (negb ok)
             else ret false) in
          if bad_email then
            logging_error (ErrInvalidEmail key) ;; ret false
          else
            let* bad_datetime :=
              (if is_format format_ "date-time"
               then let* ok := lift (is_valid_datetime value) in ret (negb ok)
               else ret false) in
            if bad_datetime then
              logging_error (ErrInvalidDatetime key) ;; ret false
            else ret true
    end.

Fixpoint validate_fields (row_dict : gmap string pyval) (req : list string)
    (props : list (string * field_def)) : M bool :=
  match props with
  | [] => ret true
  | (key, definition) :: rest =>
      let* ok := validate_field row_dict req key definition in
      if ok then validate_fields row_dict req rest else ret false
  end.

(** [validate_data_against_schema(data, schema)]; [dict(row)] copies the
    row, which is only read afterwards. *)
Fixpoint validate_data_against_schema (data : list (gmap string pyval))
    (schema : schema_t) : M bool :=
  match data with
  | [] => ret true
  | row :: rest =>
      let row_dict := row in
      let* ok := validate_fields row_dict (required schema) (properties schema) in
      if ok then validate_data_against_schema rest schema else ret false
  end.

End Validator.

(** ** data_processor.py *)

Module CSVProcessor.

Import Validator.

Definition TRUE_VALUES : list pyval :=
  [VStr "true"; VStr "True"; VStr "TRUE"; VStr "1"; VInt 1; VBool true; VStr "t"].
Definition FALSE_VALUES : list pyval :=
  [VStr "false"; VStr "False"; VStr "FALSE"; VStr "0"; VInt 0; VBool false; VStr "f"].
Definition NULL_VALUES : list pyval :=
  [VStr "NaN"; VStr "null"; VNone; VStr ""].

(** The methods that [SCHEMA_PROCESSING_MAP] names. *)
Inductive method : Type :=
| process_numeric_name
| process_generic_cell_name
| process_boolean_name.

Definition SCHEMA_PROCESSING_MAP : list (string * method) :=
  [("integer", process_numeric_name);
   ("string", process_generic_cell_name);
   ("boolean", process_boolean_name)].

(** [SCHEMA_PROCESSING_MAP.get(data_type)]; an absent ["type"] is the key
    [None], which the map does not hold. *)
Definition processing_map_get (data_type : option string) : option method :=
  match data_type with
  | Some t => snd <$> List.find (fun kv => String.eqb (fst kv) t) SCHEMA_PROCESSING_MAP
  | None => None
  end.

(** The attributes of the processor that [process_csv] and the cell rules
    read. [db_manager] is the sink: what
    [self.db_manager.insert_data(self.table_name, data, self.schema)]
    does with a batch, which is to return or to raise. *)
Record t : Type := {
  schema : schema_t;
  strict_mode : bool;
  use_zero_for_null_numerics : bool;
  csv_has_header : bool;
  db_manager : list (list pyval) -> res unit
}.

Section Processor.

(** [parser.parse(datetime_str).isoformat()] of dateutil: the ISO string,
    or the exception raised on the way. *)
Variable dateutil_isoformat : pyval -> res string.

Variable self : t.

Definition process_datetime (datetime_str : pyval) : M pyval :=
  match dateutil_isoformat datetime_str with
  | Ok iso => ret (VStr iso)
  | Raise e =>
      logging_error (ErrParsingDatetime datetime_str e) ;;
      if strict_mode self then raise e else ret VNone
  end.

Definition process_generic_cell (cell : pyval) (field_type : string) : M pyval :=
  if negb (truthy cell) then
    if strict_mode self then
      logging_error ErrEmptyCell ;; raise (ValueError EmptyCellFound)
    else
      if String.eqb field_type "string" then ret (VStr "")
      else if String.eqb field_type "number" then
        ret (if negb (use_zero_for_null_numerics self) then VNone else VInt 0)
      else if String.eqb field_type "integer" then
        ret (if negb (use_zero_for_null_numerics self) then VNone else VInt 0)
      else if String.eqb field_type "boolean" then ret (VBool false)
      else if String.eqb field_type "datetime" then ret VNone
      else ret VNone
  else ret cell.

Definition process_numeric (cell : pyval) : M pyval :=
  if py_in cell NULL_VALUES then
    if strict_mode self then
      logging_error ErrNotNumeric ;; raise (ValueError CellShouldBeNumeric)
    else ret (if negb (use_zero_for_null_numerics self) then VNone else VInt 0)
  else
    let* n := lift (py_int cell) in
    let* f := lift (py_float cell) in
    if float_eq_Z f n then
      let* n' := lift (py_int cell) in ret (VInt n')
    else
      let* f' := lift (py_float cell) in ret (VFloat f').

Definition process_boolean (cell : pyval) : M pyval :=
  if py_in cell TRUE_VALUES then ret (VBool true)
  else if py_in cell FALSE_VALUES then ret (VBool false)
  else
    if strict_mode self then
      logging_error ErrNotBoolean ;; raise (ValueError CellShouldBeBoolean)
    else ret VNone.

Definition process_enum (cell : pyval) (enum_values : list pyval) : M pyval :=
  if py_in cell enum_values then ret cell
  else if strict_mode self then
    logging_error (ErrEnum cell enum_values) ;;
    raise (ValueError (UnexpectedEnumValue cell enum_values))
  else ret VNone.

(** [set(row) == set(expected_columns)] *)
Definition seems_to_be_header (row : list string) : bool :=
  let expected_columns := keys (schema self) in
  bool_decide (list_to_set row =@{gset string} list_to_set expected_columns).

(** [db_manager] is always set by [__init__], so the batch goes to
    [insert_data]: the world records the call, and what [insert_data]
    raises propagates. *)
Definition insert_into_postgres (data : batch) : M unit :=
  fun w => (db_manager self data,
            {| logs := logs w; inserted := inserted w ++ [data] |}).

(** [getattr(self, processing_func_name)(column)] *)
Definition call_method (name : method) (column : pyval) : M pyval :=
  match name with
  | process_numeric_name => process_numeric column
  | process_generic_cell_name => process_generic_cell column "string"
  | process_boolean_name => process_boolean column
  end.

(** [dict(zip(keys, values))]: a later pair replaces an earlier one with
    the same key. *)
Definition dict_of_pairs (kvs : list (string * pyval)) : gmap string pyval :=
  fold_left (fun m kv => <[fst kv := snd kv]> m) kvs ∅.

(** The inner loop of [process_csv], over
    [zip(row, self.schema["properties"].items())]. [None] is the [return]
    of strict mode, [Some processed_row] the end of the loop. *)
Fixpoint process_cells (row_number : Z)
    (pairs : list (string * (string * field_def)))
    (processed_row : list pyval) : M (option (list pyval)) :=
  match pairs with
  | [] => ret (Some processed_row)
  | (column, (key, value)) :: rest =>
      let is_enum := def_enum value in
      let is_datetime := is_format (def_format value) "date-time" in
      match is_enum with
      | Some (e :: es) =>
          let* processed_value := process_enum (VStr column) (e :: es) in
          process_cells row_number rest (processed_row ++ [processed_value])
      | _ =>
          if is_datetime then
            let* processed_value := process_datetime (VStr column) in
            process_cells row_number rest (processed_row ++ [processed_value])
          else
            let data_type := def_type value in
            match processing_map_get data_type with
            | None =>
                logging_error (ErrNoProcessingFunction data_type row_number) ;;
                if strict_mode self then ret None
                else process_cells row_number rest processed_row
            | Some processing_func_name =>
                let* processed_value := call_method processing_func_name (VStr column) in
                process_cells row_number rest (processed_row ++ [processed_value])
            end
      end
  end.

(** The loop [for row in reader]. [None] is a [return] before the insert,
    [Some processed_data] the end of the loop. *)
Fixpoint process_rows (rows : list (list string)) (row_number : Z)
    (processed_data : batch) : M (option batch) :=
  match rows with
  | [] => ret (Some processed_data)
  | row :: rest =>
      let row_number := row_number + 1 in
      let* cells := process_cells row_number (zip row (properties (schema self))) [] in
      match cells with
      | None => ret None
      | Some processed_row =>
          let row_dict := dict_of_pairs (zip (keys (schema self)) processed_row) in
          let* ok := validate_data_against_schema [row_dict] (schema self) in
          let* stop :=
            (if negb ok then
               logging_error (ErrValidationFailed row_number row) ;;
               ret (strict_mode self)
             else ret false) in
          if stop then ret None
          else process_rows rest row_number (processed_data ++ [processed_row])
      end
  end.

(** [process_csv], on the rows that [csv.reader] yields for the file.
    [next(reader)] raises [StopIteration] on an empty file; [file.seek(0)]
    makes the loop start again from the first row. *)
Definition process_csv (file : list (list string)) : M unit :=
  match file with
  | [] => raise StopIteration
  | first_row :: remaining =>
      let has_header := csv_has_header self || seems_to_be_header first_row in
      let reader := if negb has_header then first_row :: remaining else remaining in
      let* result := process_rows reader 0 [] in
      match result with
      | None => ret tt
      | Some processed_data => insert_into_postgres processed_data
      end
  end.

End Processor.

End CSVProcessor.

(** ** database_manager.py: table creation *)

Module DatabaseManager.

Import Validator.

(** [type_mapping], the entry for ["string"] apart. *)
Definition type_mapping : list (string * string) :=
  [("integer", "SERIAL"); ("boolean", "BOOLEAN")].

Definition string_mapping : list (string * string) :=
  [("default", "VARCHAR(255)");
   ("email", "VARCHAR(255)");
   ("date-time", "TIMESTAMP WITH TIME ZONE")].

Definition assoc (k : string) (l : list (string * string)) : option string :=
  snd <$> List.find (fun kv => String.eqb (fst kv) k) l.

Definition _get_sql_type (detail : field_def) : res string :=
  match def_type detail with
  | None => Raise (KeyError "type")
  | Some datatype =>
      if String.eqb datatype "string" then
        let format_ := def_format detail in
        Ok (default "VARCHAR(255)" (format_ ≫= fun f => assoc f string_mapping))
      else
        match assoc datatype type_mapping with
        | Some sql => Ok sql
        | None => Raise (KeyError datatype)
        end
  end.

(** The column definitions that [create_table] joins into its command. *)
Fixpoint column_parts (props : list (string * field_def)) (req : list string)
  : res (list string) :=
  match props with
  | [] => Ok []
  | (column_name, details) :: rest =>
      match _get_sql_type details with
      | Raise e => Raise e
      | Ok sql_type =>
          let sql_part := column_name +:+ " " +:+ sql_type in
          let sql_part :=
            if is_format (def_format details) "email" then sql_part +:+ " UNIQUE"
            else sql_part in
          let sql_part :=
            if str_in column_name req then sql_part +:+ " NOT NULL" else sql_part in
          match column_parts rest req with
          | Raise e => Raise e
          | Ok columns => Ok (sql_part :: columns)
          end
      end
  end.

(** A statement that changes the database. *)
Inductive statement : Type :=
| CreateTable (table_name : string) (columns : list string).

Section Backend.

(** The database behind the connection. [select_table_exists] is the
    [SELECT EXISTS] query on [information_schema.tables];
    [execute_create_table] runs and commits [CREATE TABLE]. Both may raise,
    and a statement that raises leaves the database as it was. *)
Variable conn : Type.
Variable select_table_exists : conn -> string -> res bool.
Variable execute_create_table : string -> list string -> conn -> res conn.

(** The manager: its connection and the statements it has executed. *)
Record manager : Type := {
  connection : conn;
  executed : list statement
}.

Definition table_exists (self : manager) (table_name : string) : res bool :=
  select_table_exists (connection self) table_name.

Definition create_table (self : manager) (schema : schema_t) (table_name : string)
  : res manager :=
  match column_parts (properties schema) (required schema) with
  | Raise e => Raise e
  | Ok columns =>
      match execute_create_table table_name columns (connection self) with
      | Raise e => Raise e
      | Ok c =>
          Ok {| connection := c;
                executed := executed self ++ [CreateTable table_name columns] |}
      end
  end.

Definition ensure_table_exists (self : manager) (schema : schema_t)
    (table_name : string) : res manager :=
  match table_exists self table_name with
  | Raise e => Raise e
  | Ok exists_ =>
      if negb exists_ then create_table self schema table_name
      else Ok self
  end.

End Backend.

Arguments Build_manager {conn} connection executed.
Arguments connection {conn} m.
Arguments executed {conn} m.
Arguments table_exists {conn} select_table_exists self table_name.
Arguments create_table {conn} execute_create_table self schema table_name.
Arguments ensure_table_exists {conn} select_table_exists execute_create_table
  self schema table_name.

(** A database that holds the names of its tables, for examples. *)
Definition names_select (c : list string) (table_name : string) : res bool :=
  Ok (str_in table_name c).
Definition names_create (table_name : string) (columns : list string)
    (c : list string) : res (list string) :=
  if str_in table_name c then Raise DatabaseError else Ok (table_name :: c).

End DatabaseManager.

(** ** Inputs used by the examples *)

Module Examples.

Import CSVProcessor.

Definition field (t : string) (f : option string) : field_def :=
  {| def_type := Some t; def_format := f; def_enum := None |}.

(** The schema of scenario A: [id], [username], and [email] with the
    e-mail format, all three required. *)
Definition user_schema : schema_t :=
  {| properties := [("id", field "integer" None);
                    ("username", field "string" None);
                    ("email", field "string" (Some "email"))];
     required := ["id"; "username"; "email"] |}.

Definition user_rows : list (list string) :=
  [["1"; "alice"; "alice@example.com"];
   ["2"; "bob"; "not-an-email"]].

(** A sink that takes every batch. *)
Definition accepting_sink (data : list (list pyval)) : res unit := Ok tt.

(** A sink whose table cannot be created: [insert_data] raises the
    [KeyError] of [_get_sql_type] for a field of type ["number"]. *)
Definition refusing_sink (data : list (list pyval)) : res unit :=
  Raise (KeyError "number").

Definition lenient (s : schema_t) : CSVProcessor.t :=
  {| schema := s; strict_mode := false;
     use_zero_for_null_numerics := false; csv_has_header := false;
     db_manager := accepting_sink |}.

Definition strict (s : schema_t) : CSVProcessor.t :=
  {| schema := s; strict_mode := true;
     use_zero_for_null_numerics := false; csv_has_header := false;
     db_manager := accepting_sink |}.

(** A schema whose second field has the type ["number"], for which
    [SCHEMA_PROCESSING_MAP] has no entry. *)
Definition measure_schema : schema_t :=
  {| properties := [("a", field "integer" None);
                    ("b", field "number" None);
                    ("c", field "string" None)];
     required := [] |}.

(** A schema with one field, of type ["number"]. *)
Definition price_schema : schema_t :=
  {| properties := [("price", field "number" None)]; required := [] |}.

(** Lenient mode with [use_zero_for_null_numerics] set. *)
Definition lenient_zero (s : schema_t) : CSVProcessor.t :=
  {| schema := s; strict_mode := false;
     use_zero_for_null_numerics := true; csv_has_header := false;
     db_manager := accepting_sink |}.


(** Lenient mode in front of a sink that raises. *)
Definition lenient_refused (s : schema_t) : CSVProcessor.t :=
  {| schema := s; strict_mode := false;
     use_zero_for_null_numerics := false; csv_has_header := false;
     db_manager := refusing_sink |}.


(** A schema that declares the e-mail format on an integer field. *)
Definition odd_schema : schema_t :=
  {| properties := [("x", field "integer" (Some "email"))]; required := [] |}.

(** A date parser that refuses every input; the examples have no
    date-time field. *)
Definition no_dates (v : pyval) : res string := Raise ParserError.

End Examples.

(** ** Notions used to state the properties *)

Module Notions.

Import CSVProcessor Validator.

(** The world after one more record has been logged. *)
Definition log_to (w : world) (r : log_record) : world :=
  {| logs := logs w ++ [r]; inserted := inserted w |}.

(** What [process_csv] does once it has settled which rows are data. *)
Definition process_data (dates : pyval -> res string) (self : CSVProcessor.t)
    (rows : list (list string)) : M unit :=
  let* result := process_rows dates self rows 0 [] in
  match result with
  | None => ret tt
  | Some processed_data => insert_into_postgres self processed_data
  end.

(** The rows that the loop of [process_csv] reads, for a file that has a
    first row. *)
Definition data_rows (self : CSVProcessor.t) (first_row : list string)
    (remaining : list (list string)) : list (list string) :=
  if negb (csv_has_header self || seems_to_be_header self first_row)
  then first_row :: remaining else remaining.

(** The typed row that [process_csv] assembles from the coerced values. *)
Definition typed_row (self : CSVProcessor.t) (processed_row : list pyval)
  : gmap string pyval :=
  dict_of_pairs (zip (keys (schema self)) processed_row).

(** A field definition that declares a type, and declares the formats
    [email] and [date-time] only together with the type ["string"]. *)
Definition format_on_string (definition : field_def) : Prop :=
  exists t : string,
    def_type definition = Some t /\
    (is_format (def_format definition) "email"
     || is_format (def_format definition) "date-time" = true ->
     t = "string").

Definition type_mismatch (key t : string) (value : pyval) : option log_record :=
  if String.eqb t "integer" && negb (isinstance_int value)
  then Some (ErrExpectedInteger key value)
  else if String.eqb t "number"
          && (negb (isinstance_float value) && negb (isinstance_int value))
  then Some (ErrExpectedNumber key value)
  else if String.eqb t "string" && negb (isinstance_str value)
  then Some (ErrExpectedString key value)
  else if String.eqb t "boolean" && negb (isinstance_bool value)
  then Some (ErrExpectedBoolean key value)
  else None.

Definition str_matches (m : string -> bool) (value : pyval) : bool :=
  match value with
  | VStr s => m s
  | _ => false
  end.

(** The violation of one field by one row, as the record that reports it:
    a required field that is absent, a value of the wrong type, a string
    of the wrong format. *)
Definition violation (row_dict : gmap string pyval) (req : list string)
    (key : string) (definition : field_def) : option log_record :=
  if negb (bool_decide (is_Some (row_dict !! key))) && str_in key req
  then Some (ErrRequiredMissing key)
  else
    let value := default VNone (row_dict !! key) in
    match def_type definition with
    | None => None
    | Some t =>
        match type_mismatch key t value with
        | Some r => Some r
        | None =>
            if is_format (def_format definition) "email"
               && negb (str_matches (re_match email_pattern) value)
            then Some (ErrInvalidEmail key)
            else if is_format (def_format definition) "date-time"
                    && negb (str_matches (re_match_dollar datetime_pattern) value)
            then Some (ErrInvalidDatetime key)
            else None
        end
    end.

(** All violations, rows in order and, within a row, fields in schema
    order. *)
Definition violations (data : list (gmap string pyval)) (schema : schema_t)
  : list log_record :=
  flat_map (fun row_dict =>
              omap (fun kd => violation row_dict (required schema) (fst kd) (snd kd))
                   (properties schema))
           data.

(** Computations that leave the sink alone. *)
Definition keeps_sink {A : Type} (m : M A) : Prop :=
  forall w : world, inserted (snd (m w)) = inserted w.

End Notions.

(** ** utils.py *)

Module Utils.

(** The class [[ \-\/\.]] of the pattern of [parameterize_name]. *)
Definition is_separator (c : ascii) : bool :=
  Ascii.eqb c " " || Ascii.eqb c "-" || Ascii.eqb c "/" || Ascii.eqb c ".".

(** [re.sub(r"[ \-\/\.]+", "_", name)], read from left to right: every
    maximal run of separators becomes one underscore. [in_run] tells
    whether the previous character belonged to the run being replaced. *)
Fixpoint sub_runs (in_run : bool) (name : string) : string :=
  match name with
  | EmptyString => EmptyString
  | String c rest =>
      if is_separator c then
        if in_run then sub_runs true rest
        else String "_" (sub_runs true rest)
      else String c (sub_runs false rest)
  end.

Definition parameterize_name (name : string) : string := sub_runs false name.

End Utils.

(** ** What a regular expression matches *)

Module ReSpec.

(** [matches r s]: the whole of [s] is a word of [r]. *)
Inductive matches : regex -> string -> Prop :=
| MEps : matches Eps EmptyString
| MSym (p : ascii -> bool) (c : ascii) :
    p c = true -> matches (Sym p) (String c EmptyString)
| MCat (r1 r2 : regex) (s1 s2 : string) :
    matches r1 s1 -> matches r2 s2 -> matches (Cat r1 r2) (s1 +:+ s2)
| MAltL (r1 r2 : regex) (s : string) : matches r1 s -> matches (Alt r1 r2) s
| MAltR (r1 r2 : regex) (s : string) : matches r2 s -> matches (Alt r1 r2) s
| MStarNil (r : regex) : matches (Star r) EmptyString
| MStarCons (r : regex) (s1 s2 : string) :
    matches r s1 -> matches (Star r) s2 -> matches (Star r) (s1 +:+ s2).

(** Every character of [s] satisfies [p]. *)
Fixpoint all_chars (p : ascii -> bool) (s : string) : bool :=
  match s with
  | EmptyString => true
  | String c s' => p c && all_chars p s'
  end.

End ReSpec.

(** ** The shapes the two patterns of the validator stand for *)

Module Shapes.

Import Validator ReSpec.

(** [n] decimal digits. *)
Definition digits (n : nat) (x : string) : Prop :=
  String.length x = n /\ all_chars is_digit x = true.

(** Nothing, [Z], or a sign followed by [HH:MM]. *)
Definition zone_shape (tz : string) : Prop :=
  tz = "" \/ tz = "Z" \/
  exists (sg : ascii) (oh om : string),
    tz = String sg (oh +:+ ":" +:+ om) /\
    (sg = "+"%char \/ sg = "-"%char) /\ digits 2 oh /\ digits 2 om.

(** [YYYY-MM-DDTHH:MM:SS] followed by a zone. *)
Definition datetime_shape (core : string) : Prop :=
  exists y mo dd hh mi ss tz : string,
    core = y +:+ "-" +:+ mo +:+ "-" +:+ dd +:+ "T" +:+ hh +:+ ":" +:+ mi +:+ ":" +:+ ss +:+ tz
    /\ digits 4 y /\ digits 2 mo /\ digits 2 dd
    /\ digits 2 hh /\ digits 2 mi /\ digits 2 ss /\ zone_shape tz.

(** A non-empty string without [@]. *)
Definition at_free (x : string) : Prop :=
  x <> "" /\ all_chars not_at x = true.

End Shapes.

(** ** Notions about the fields of a schema *)

Module Fields.

Import CSVProcessor Validator.

(** A field for which [process_csv] has a rule: a non-empty [enum], the
    format [date-time], or a type that [SCHEMA_PROCESSING_MAP] knows. *)
Definition has_rule (definition : field_def) : bool :=
  match def_enum definition with
  | Some (_ :: _) => true
  | _ =>
      is_format (def_format definition) "date-time"
      || match processing_map_get (def_type definition) with
         | Some _ => true
         | None => false
         end
  end.


(** The tuple [pr] made from the row [row]: no longer than the row and
    than the schema, and exactly that long when every field has a rule. *)
Definition tuple_fits (self : CSVProcessor.t) (row : list string) (pr : list pyval)
  : Prop :=
  (List.length pr <= Nat.min (List.length row) (List.length (properties (schema self))))%nat
  /\ (forallb (fun kd => has_rule (snd kd)) (properties (schema self)) = true ->
      List.length pr = Nat.min (List.length row) (List.length (properties (schema self)))).

End Fields.

(** ** database_manager.py: insertion *)

Module DatabaseInsert.

Import DatabaseManager.

(** What [cursor.executemany] followed by [conn.commit()] can do: succeed,
    raise [errors.UndefinedTable], or raise anything else. *)
Inductive insert_result (conn : Type) : Type :=
| Inserted (c : conn)
| UndefinedTable
| InsertFailed.
Arguments Inserted {conn} c.
Arguments UndefinedTable {conn}.
Arguments InsertFailed {conn}.

Section Backend.

Variable conn : Type.
Variable select_table_exists : conn -> string -> res bool.
Variable execute_create_table : string -> list string -> conn -> res conn.

(** [executemany_insert table_name columns placeholders data c]: the
    [INSERT INTO table_name (columns) VALUES (%s, ...)] with as many
    placeholders as the first tuple has values, run for every tuple. *)
Variable executemany_insert :
  string -> list string -> nat -> list (list pyval) -> conn -> insert_result conn.

(** [insert_data]. The call that retries after [UndefinedTable] is
    recursive without a bound in the source; [fuel] counts the calls, and
    [None] says that it ran out. [data[0]] raises [IndexError] on an empty
    batch, inside the [try], where [except Exception] catches it: the
    method then prints the failure and returns. *)
Fixpoint insert_data (fuel : nat) (self : manager conn) (table_name : string)
    (data : list (list pyval)) (schema : schema_t) : option (res (manager conn)) :=
  match fuel with
  | O => None
  | S fuel' =>
      match ensure_table_exists select_table_exists execute_create_table
              self schema table_name with
      | Raise e => Some (Raise e)
      | Ok self1 =>
          match data with
          | [] => Some (Ok self1)               (* IndexError, printed *)
          | first :: _ =>
              let placeholders := List.length first in
              let columns := keys schema in
              match executemany_insert table_name columns placeholders data
                      (connection self1) with
              | Inserted c =>
                  Some (Ok {| connection := c; executed := executed self1 |})
              | UndefinedTable =>
                  match create_table execute_create_table self1 schema table_name with
                  | Raise e => Some (Raise e)
                  | Ok self2 => insert_data fuel' self2 table_name data schema
                  end
              | InsertFailed => Some (Ok self1)  (* printed *)
              end
          end
      end
  end.

End Backend.

Arguments insert_data {conn} select_table_exists execute_create_table
  executemany_insert fuel self table_name data schema.

(** The types for which [_get_sql_type] has a column type. *)
Definition sql_supported (definition : field_def) : bool :=
  match def_type definition with
  | Some t => String.eqb t "string" || String.eqb t "integer" || String.eqb t "boolean"
  | None => false
  end.

(** An insert for the database of names: it needs the table. *)
Definition names_insert (table_name : string) (columns : list string)
    (placeholders : nat) (data : list (list pyval)) (c : list string)
  : insert_result (list string) :=
  if Validator.str_in table_name c then Inserted c else UndefinedTable.

End DatabaseInsert.

(** ** Properties *)

Import CSVProcessor Validator Examples Notions.

(** *** The empty file *)

(** C10. On a file of zero lines [process_csv] raises [StopIteration] at
    [next(reader)]: nothing is logged, no row is processed and the sink's
    insert receives no call. *)
Theorem process_csv_empty_file :
  forall (dates : pyval -> res string) (self : CSVProcessor.t) (w : world),
    process_csv dates self [] w = (Raise StopIteration, w).
Proof. intros dates self w. reflexivity. Qed.

(** *** Header detection *)

Lemma seems_to_be_header_iff (self : CSVProcessor.t) (row : list string) :
  seems_to_be_header self row = true <->
  (forall x : string, In x row <-> In x (keys (schema self))).
Proof.
  unfold seems_to_be_header. rewrite bool_decide_eq_true.
  split.
  - intros Heq x. rewrite <- !list_elem_of_In.
    rewrite <- (elem_of_list_to_set (C := gset string) x row).
    rewrite <- (elem_of_list_to_set (C := gset string) x (keys (schema self))).
    rewrite Heq. reflexivity.
  - intros Hall. apply set_eq. intros x.
    rewrite !elem_of_list_to_set, !list_elem_of_In. apply Hall.
Qed.

(** C8. The first line is dropped as a header exactly when
    [csv_has_header] is set or the set of its cells is the set of the
    schema's field names; otherwise it is processed as the first data row. *)
Theorem header_detection :
  forall (dates : pyval -> res string) (self : CSVProcessor.t)
         (first_row : list string) (remaining : list (list string)),
    let is_header :=
      csv_has_header self = true \/
      (forall x : string, In x first_row <-> In x (keys (schema self))) in
    (is_header ->
       process_csv dates self (first_row :: remaining) = process_data dates self remaining) /\
    (~ is_header ->
       process_csv dates self (first_row :: remaining)
       = process_data dates self (first_row :: remaining)).
Proof.
  intros dates self first_row remaining is_header. subst is_header.
  rewrite <- seems_to_be_header_iff.
  unfold process_csv, process_data.
  destruct (csv_has_header self), (seems_to_be_header self first_row); simpl;
    split; intros H; try reflexivity.
  - exfalso. apply H. left. reflexivity.
  - exfalso. apply H. left. reflexivity.
  - exfalso. apply H. right. reflexivity.
  - destruct H as [H | H]; discriminate H.
Qed.

(** A first row that lists the field names in another order is dropped
    although [csv_has_header] is off; a data row is kept. *)
Lemma header_detection_witness :
  process_csv no_dates (strict user_schema) (["email"; "id"; "username"] :: user_rows)
  = process_data no_dates (strict user_schema) user_rows
  /\ process_csv no_dates (strict user_schema) user_rows
     = process_data no_dates (strict user_schema) user_rows.
Proof.
  split.
  - apply (proj1 (header_detection no_dates (strict user_schema)
                    ["email"; "id"; "username"] user_rows)).
    right. apply seems_to_be_header_iff. vm_compute. reflexivity.
  - apply (proj2 (header_detection no_dates (strict user_schema)
                    ["1"; "alice"; "alice@example.com"]
                    [["2"; "bob"; "not-an-email"]])).
    intros [H | H]; [discriminate H |].
    apply seems_to_be_header_iff in H. vm_compute in H. discriminate H.
Defined.

(** *** The cell rules *)



(** C2. [process_numeric] on the cell ["3.5"]: [int("3.5")] is evaluated
    first and raises [ValueError], so no float is returned; the same
    happens for ["1.0"]. *)
Theorem process_numeric_decimal_point_raises :
  forall (self : CSVProcessor.t) (w : world),
    py_in (VStr "3.5") NULL_VALUES = false /\
    py_float (VStr "3.5") = Ok (S754_finite false 7881299347898368 (-51)) /\
    process_numeric self (VStr "3.5") w
      = (Raise (ValueError (InvalidLiteralForInt "3.5")), w) /\
    process_numeric self (VStr "1.0") w
      = (Raise (ValueError (InvalidLiteralForInt "1.0")), w).
Proof. intros self w. repeat split. Qed.

(** The null rule of [process_numeric]: a cell of the null-sentinel set
    is logged and refused with [ValueError] in strict mode; in lenient mode
    it becomes [0] when [use_zero_for_null_numerics] is set and [None] when
    it is not. Fields of type ["integer"] are the ones dispatched to this
    rule. *)
Lemma process_numeric_null_cell :
  forall (self : CSVProcessor.t) (cell : pyval) (w : world),
    In cell [VStr ""; VStr "NaN"; VStr "null"; VNone] ->
    processing_map_get (Some "integer") = Some process_numeric_name /\
    call_method self process_numeric_name cell = process_numeric self cell /\
    process_numeric self cell w =
      if strict_mode self
      then (Raise (ValueError CellShouldBeNumeric), log_to w ErrNotNumeric)
      else (Ok (if use_zero_for_null_numerics self then VInt 0 else VNone), w).
Proof.
  intros self cell w Hin.
  split; [reflexivity |]. split; [reflexivity |].
  assert (Hnull : py_in cell NULL_VALUES = true).
  { simpl in Hin. decompose [or] Hin; subst; try reflexivity; contradiction. }
  unfold process_numeric. rewrite Hnull.
  destruct (strict_mode self); [reflexivity |].
  destruct (use_zero_for_null_numerics self); reflexivity.
Qed.

Lemma process_numeric_null_cell_witness :
  process_numeric {| schema := user_schema; strict_mode := false;
                     use_zero_for_null_numerics := true; csv_has_header := true;
                     db_manager := accepting_sink |}
                  (VStr "") world0 = (Ok (VInt 0), world0)
  /\ process_numeric (lenient user_schema) (VStr "") world0 = (Ok VNone, world0)
  /\ process_numeric (strict user_schema) VNone world0
     = (Raise (ValueError CellShouldBeNumeric), log_to world0 ErrNotNumeric).
Proof.
  split; [| split].
  - apply (process_numeric_null_cell
             {| schema := user_schema; strict_mode := false;
                use_zero_for_null_numerics := true; csv_has_header := true;
                     db_manager := accepting_sink |}
             (VStr "") world0).
    simpl. left. reflexivity.
  - apply (process_numeric_null_cell (lenient user_schema) (VStr "") world0).
    simpl. left. reflexivity.
  - apply (process_numeric_null_cell (strict user_schema) VNone world0).
    simpl. right. right. right. left. reflexivity.
Defined.

(** C6. A null cell of a field of type ["number"] never reaches the
    numeric rule, because [SCHEMA_PROCESSING_MAP] has no entry for
    ["number"]: with the empty cell, in lenient mode with
    [use_zero_for_null_numerics] set, the field is logged and skipped, so
    the processed row is empty and no [0] is produced; in strict mode the
    run returns instead of raising. The rule that [process_generic_cell]
    writes down for the type ["number"] does give [0] for that cell. *)
Theorem number_null_cell_is_skipped :
  forall dates : pyval -> res string,
    processing_map_get (Some "number") = None
    /\ process_generic_cell (lenient_zero price_schema) (VStr "") "number" world0
       = (Ok (VInt 0), world0)
    /\ process_cells dates (lenient_zero price_schema) 1
         (zip [""] (properties price_schema)) [] world0
       = (Ok (Some []), log_to world0 (ErrNoProcessingFunction (Some "number") 1))
    /\ inserted (snd (process_csv dates (lenient_zero price_schema) [[""]] world0))
       = [[[]]]
    /\ process_csv dates (strict price_schema) [[""]] world0
       = (Ok tt, log_to world0 (ErrNoProcessingFunction (Some "number") 1)).
Proof. intros dates. repeat split; vm_compute; reflexivity. Qed.



(** *** The row loop *)

(** C1. Scenario A in lenient mode: the second row fails validation (its
    e-mail has no [@]), the failure is logged, and the row is appended to
    [processed_data] all the same, so the sink receives both rows. *)
Theorem lenient_invalid_row_reaches_sink :
  forall dates : pyval -> res string,
    validate_data_against_schema
      [typed_row (lenient user_schema) [VInt 2; VStr "bob"; VStr "not-an-email"]]
      user_schema world0
    = (Ok false, log_to world0 (ErrInvalidEmail "email"))
    /\ process_csv dates (lenient user_schema) user_rows world0
       = (Ok tt,
          {| logs := [ErrInvalidEmail "email";
                      ErrValidationFailed 2 ["2"; "bob"; "not-an-email"]];
             inserted := [[[VInt 1; VStr "alice"; VStr "alice@example.com"];
                           [VInt 2; VStr "bob"; VStr "not-an-email"]]] |}).
Proof. intros dates. split; vm_compute; reflexivity. Qed.

(** C3. A row of three cells under a schema whose middle field has the
    unsupported type ["number"], in lenient mode: the middle cell is
    skipped, the processed row has two values, and the typed row pairs the
    third cell's value with the second field name and leaves the third
    field without a value. In strict mode the run returns before the
    insert. *)
Theorem lenient_unsupported_type_shifts_fields :
  forall dates : pyval -> res string,
    process_cells dates (lenient measure_schema) 1
      (zip ["1"; "2.5"; "x"] (properties measure_schema)) [] world0
    = (Ok (Some [VInt 1; VStr "x"]),
       log_to world0 (ErrNoProcessingFunction (Some "number") 1))
    /\ typed_row (lenient measure_schema) [VInt 1; VStr "x"] !! "a" = Some (VInt 1)
    /\ typed_row (lenient measure_schema) [VInt 1; VStr "x"] !! "b" = Some (VStr "x")
    /\ typed_row (lenient measure_schema) [VInt 1; VStr "x"] !! "c" = None
    /\ inserted (snd (process_csv dates (lenient measure_schema) [["1"; "2.5"; "x"]] world0))
       = [[[VInt 1; VStr "x"]]]
    /\ process_csv dates (strict measure_schema) [["1"; "2.5"; "x"]] world0
       = (Ok tt, log_to world0 (ErrNoProcessingFunction (Some "number") 1)).
Proof. intros dates. repeat split; vm_compute; reflexivity. Qed.

(** Computations that leave the sink alone. *)

Lemma keeps_sink_ret {A} (a : A) : keeps_sink (ret a).
Proof. intros w. reflexivity. Qed.

Lemma keeps_sink_raise {A} (e : exn) : keeps_sink (@raise A e).
Proof. intros w. reflexivity. Qed.

Lemma keeps_sink_lift {A} (r : res A) : keeps_sink (lift r).
Proof. intros w. reflexivity. Qed.

Lemma keeps_sink_log (r : log_record) : keeps_sink (logging_error r).
Proof. intros w. reflexivity. Qed.

Lemma keeps_sink_bind {A B} (m : M A) (k : A -> M B) :
  keeps_sink m -> (forall a, keeps_sink (k a)) -> keeps_sink (bind m k).
Proof.
  intros Hm Hk w. unfold bind. specialize (Hm w).
  destruct (m w) as [[a | e] w']; simpl in *.
  - rewrite Hk. exact Hm.
  - exact Hm.
Qed.

Create HintDb sink.
#[local] Hint Resolve keeps_sink_ret keeps_sink_raise keeps_sink_lift keeps_sink_log
  keeps_sink_bind : sink.

Ltac keeps_sink_step :=
  match goal with
  | |- keeps_sink (bind _ _) => apply keeps_sink_bind; [| intros ?]
  | |- keeps_sink (if ?b then _ else _) => destruct b
  | |- keeps_sink (match ?x with _ => _ end) => destruct x
  | |- keeps_sink _ => solve [auto with sink]
  end.

Lemma keeps_sink_validate_field row_dict req key definition :
  keeps_sink (validate_field row_dict req key definition).
Proof. unfold validate_field. repeat keeps_sink_step. Qed.

Lemma keeps_sink_validate_fields row_dict req props :
  keeps_sink (validate_fields row_dict req props).
Proof.
  induction props as [| [key definition] rest IH]; simpl.
  - auto with sink.
  - apply keeps_sink_bind; [apply keeps_sink_validate_field |].
    intros [|]; auto with sink.
Qed.

Lemma keeps_sink_validate data schema :
  keeps_sink (validate_data_against_schema data schema).
Proof.
  induction data as [| row rest IH]; simpl.
  - auto with sink.
  - apply keeps_sink_bind; [apply keeps_sink_validate_fields |].
    intros [|]; auto with sink.
Qed.

Lemma keeps_sink_call_method self name column :
  keeps_sink (call_method self name column).
Proof.
  destruct name; simpl;
    [unfold process_numeric | unfold process_generic_cell | unfold process_boolean];
    repeat keeps_sink_step.
Qed.

Lemma keeps_sink_process_cells dates self row_number pairs :
  forall processed_row,
    keeps_sink (process_cells dates self row_number pairs processed_row).
Proof.
  induction pairs as [| [column [key value]] rest IH]; intros processed_row; simpl.
  - auto with sink.
  - destruct (def_enum value) as [[| e es] |].
    + destruct (is_format (def_format value) "date-time").
      * apply keeps_sink_bind; [| intros ?; apply IH].
        unfold process_datetime. repeat keeps_sink_step.
      * destruct (processing_map_get (def_type value)).
        -- apply keeps_sink_bind; [apply keeps_sink_call_method | intros ?; apply IH].
        -- apply keeps_sink_bind; [auto with sink | intros ?].
           destruct (strict_mode self); [auto with sink | apply IH].
    + apply keeps_sink_bind; [| intros ?; apply IH].
      unfold process_enum. repeat keeps_sink_step.
    + destruct (is_format (def_format value) "date-time").
      * apply keeps_sink_bind; [| intros ?; apply IH].
        unfold process_datetime. repeat keeps_sink_step.
      * destruct (processing_map_get (def_type value)).
        -- apply keeps_sink_bind; [apply keeps_sink_call_method | intros ?; apply IH].
        -- apply keeps_sink_bind; [auto with sink | intros ?].
           destruct (strict_mode self); [auto with sink | apply IH].
Qed.

Lemma keeps_sink_process_rows dates self rows :
  forall row_number processed_data,
    keeps_sink (process_rows dates self rows row_number processed_data).
Proof.
  induction rows as [| row rest IH]; intros row_number processed_data.
  - simpl. auto with sink.
  - cbn [process_rows].
    apply keeps_sink_bind; [apply keeps_sink_process_cells |].
    intros [processed_row |]; [| auto with sink].
    apply keeps_sink_bind; [apply keeps_sink_validate |].
    intros ok.
    apply keeps_sink_bind.
    + destruct ok; simpl; auto with sink.
    + intros [|]; [auto with sink | apply IH].
Qed.

(** The loop over [pre ++ rows] runs the loop over [pre] and, unless that
    returned or raised, goes on with [rows]. *)
Lemma process_rows_app dates self pre rows :
  forall row_number processed_data w,
    process_rows dates self (pre ++ rows) row_number processed_data w =
    match process_rows dates self pre row_number processed_data w with
    | (Ok (Some processed), w') =>
        process_rows dates self rows (row_number + Z.of_nat (List.length pre)) processed w'
    | (Ok None, w') => (Ok None, w')
    | (Raise e, w') => (Raise e, w')
    end.
Proof.
  induction pre as [| row pre IH]; intros row_number processed_data w.
  - simpl. rewrite Z.add_0_r. reflexivity.
  - change ((row :: pre) ++ rows) with (row :: (pre ++ rows)).
    cbn [process_rows]. unfold bind.
    destruct (process_cells dates self (row_number + 1) _ [] w)
      as [[[processed_row |] | e] w1]; try reflexivity.
    destruct (validate_data_against_schema _ (schema self) w1)
      as [[ok | e] w2]; try reflexivity.
    destruct ok; cbn [negb]; unfold logging_error, ret;
      [| destruct (strict_mode self); [reflexivity |]].
    all: rewrite IH;
      replace (row_number + 1 + Z.of_nat (List.length pre))
        with (row_number + Z.of_nat (List.length (row :: pre)))
        by (cbn [List.length]; lia);
      reflexivity.
Qed.

(** C4. Strict mode. If the rows before [row] went through the loop without
    a return, and [row] is coerced and then fails validation, [process_csv]
    returns at that row: the rows after it play no part in the result, and
    the sink's insert has received no call. *)
Theorem strict_validation_failure_aborts :
  forall (dates : pyval -> res string) (self : CSVProcessor.t)
         (first_row : list string) (remaining before after : list (list string))
         (row : list string) (processed : batch) (processed_row : list pyval)
         (w w1 w2 w3 : world),
    strict_mode self = true ->
    data_rows self first_row remaining = before ++ row :: after ->
    process_rows dates self before 0 [] w = (Ok (Some processed), w1) ->
    process_cells dates self (Z.of_nat (List.length before) + 1)
      (zip row (properties (schema self))) [] w1 = (Ok (Some processed_row), w2) ->
    validate_data_against_schema [typed_row self processed_row] (schema self) w2
      = (Ok false, w3) ->
    process_csv dates self (first_row :: remaining) w
      = (Ok tt, log_to w3 (ErrValidationFailed (Z.of_nat (List.length before) + 1) row))
    /\ inserted (log_to w3 (ErrValidationFailed (Z.of_nat (List.length before) + 1) row))
       = inserted w.
Proof.
  intros dates self first_row remaining before after row processed processed_row
         w w1 w2 w3 Hstrict Hrows Hbefore Hcells Hvalid.
  split.
  - unfold process_csv. fold (data_rows self first_row remaining). rewrite Hrows.
    unfold bind at 1. rewrite process_rows_app, Hbefore.
    cbn [process_rows]. rewrite Z.add_0_l.
    unfold bind at 1. rewrite Hcells.
    unfold bind at 1. unfold typed_row in Hvalid. rewrite Hvalid.
    unfold bind at 1. simpl negb. cbv iota.
    unfold bind at 1. unfold logging_error at 1. unfold ret at 1.
    rewrite Hstrict. reflexivity.
  - simpl.
    pose proof (keeps_sink_validate [typed_row self processed_row] (schema self) w2) as H3.
    rewrite Hvalid in H3. simpl in H3.
    pose proof (keeps_sink_process_cells dates self (Z.of_nat (List.length before) + 1)
                  (zip row (properties (schema self))) [] w1) as H2.
    rewrite Hcells in H2. simpl in H2.
    pose proof (keeps_sink_process_rows dates self before 0 [] w) as H1.
    rewrite Hbefore in H1. simpl in H1.
    congruence.
Qed.

(** Scenario B: the second row of the two user rows fails validation. *)
Lemma strict_validation_failure_aborts_witness :
  process_csv no_dates (strict user_schema) user_rows world0
  = (Ok tt, {| logs := [ErrInvalidEmail "email";
                        ErrValidationFailed 2 ["2"; "bob"; "not-an-email"]];
               inserted := [] |}).
Proof.
  apply (strict_validation_failure_aborts no_dates (strict user_schema)
           ["1"; "alice"; "alice@example.com"] [["2"; "bob"; "not-an-email"]]
           [["1"; "alice"; "alice@example.com"]] []
           ["2"; "bob"; "not-an-email"]
           [[VInt 1; VStr "alice"; VStr "alice@example.com"]]
           [VInt 2; VStr "bob"; VStr "not-an-email"]
           world0 world0 world0 (log_to world0 (ErrInvalidEmail "email"))).
  - reflexivity.
  - vm_compute. reflexivity.
  - vm_compute. reflexivity.
  - vm_compute. reflexivity.
  - vm_compute. reflexivity.
Defined.

(** *** The validator *)

(** C5 as stated fails. On a row whose [x] is the integer [5], under a schema that declares
    the e-mail format on the integer field [x], the type check passes and
    [re.match] is given an integer: [validate_data_against_schema] raises
    [TypeError] instead of returning a boolean. *)
Lemma validate_raises_on_formatted_integer :
  validate_data_against_schema [{[ "x" := VInt 5 ]}] odd_schema world0
  = (Raise TypeError, world0)
  /\ ~ (forall (data : list (gmap string pyval)) (schema : schema_t) (w : world),
          exists (b : bool) (w' : world),
            validate_data_against_schema data schema w = (Ok b, w')).
Proof.
  assert (H : validate_data_against_schema [{[ "x" := VInt 5 ]}] odd_schema world0
              = (Raise TypeError, world0)) by (vm_compute; reflexivity).
  split; [exact H |].
  intros Hall.
  destruct (Hall [{[ "x" := VInt 5 ]}] odd_schema world0) as (b & w' & Hb).
  rewrite H in Hb. discriminate Hb.
Qed.

Lemma validate_field_violation row_dict req key definition w :
  format_on_string definition ->
  validate_field row_dict req key definition w =
  match violation row_dict req key definition with
  | None => (Ok true, w)
  | Some r => (Ok false, log_to w r)
  end.
Proof.
  intros (t & Ht & Hfmt).
  unfold validate_field, violation, type_mismatch. rewrite Ht.
  destruct (negb (bool_decide (is_Some (row_dict !! key))) && str_in key req);
    [reflexivity |].
  set (value := default VNone (row_dict !! key)).
  destruct (String.eqb t "integer" && negb (isinstance_int value)); [reflexivity |].
  destruct (String.eqb t "number"
            && (negb (isinstance_float value) && negb (isinstance_int value)));
    [reflexivity |].
  destruct (String.eqb t "string" && negb (isinstance_str value)) eqn:Hstr;
    [reflexivity |].
  destruct (String.eqb t "boolean" && negb (isinstance_bool value)); [reflexivity |].
  destruct (is_format (def_format definition) "email") eqn:Hemail.
  - assert (t = "string") by (apply Hfmt; reflexivity). subst t.
    destruct value as [ | b | n | f | s]; try discriminate Hstr.
    unfold bind, lift, ret, is_valid_email, str_matches. cbn [andb].
    destruct (re_match email_pattern s); cbn [negb]; [| reflexivity].
    destruct (is_format (def_format definition) "date-time"); [| reflexivity].
    unfold is_valid_datetime. cbn [andb].
    destruct (re_match_dollar datetime_pattern s); reflexivity.
  - destruct (is_format (def_format definition) "date-time") eqn:Hdt.
    + assert (t = "string") by (apply Hfmt; reflexivity). subst t.
      destruct value as [ | b | n | f | s]; try discriminate Hstr.
      unfold bind, lift, ret, is_valid_datetime, str_matches. cbn [andb].
      destruct (re_match_dollar datetime_pattern s); reflexivity.
    + reflexivity.
Qed.

Lemma validate_fields_violation row_dict req props w :
  Forall (fun kd => format_on_string (snd kd)) props ->
  validate_fields row_dict req props w =
  match omap (fun kd => violation row_dict req (fst kd) (snd kd)) props with
  | [] => (Ok true, w)
  | r :: _ => (Ok false, log_to w r)
  end.
Proof.
  induction 1 as [| [key definition] rest Hd Hrest IH]; [reflexivity |].
  cbn [fst snd] in Hd.
  cbn [validate_fields omap list_omap fst snd]. unfold bind.
  rewrite (validate_field_violation _ _ _ _ _ Hd).
  destruct (violation row_dict req key definition); [reflexivity |].
  exact IH.
Qed.

(** C5, amended. Under a schema whose fields all declare a type and
    declare the formats [email] and [date-time] only on string fields,
    [validate_data_against_schema] raises nothing and returns a boolean:
    [True], with the world unchanged, when no field of no row is violated;
    [False], with the record of the first violation as the one thing
    logged, otherwise. The row and the schema are arguments that are only
    read. *)
Theorem validate_returns_first_violation :
  forall (data : list (gmap string pyval)) (schema : schema_t) (w : world),
    Forall (fun kd => format_on_string (snd kd)) (properties schema) ->
    validate_data_against_schema data schema w =
    match violations data schema with
    | [] => (Ok true, w)
    | r :: _ => (Ok false, log_to w r)
    end.
Proof.
  intros data schema w Hwf. revert w.
  induction data as [| row rest IH]; intros w; [reflexivity |].
  cbn [validate_data_against_schema]. unfold bind.
  rewrite (validate_fields_violation _ _ _ _ Hwf).
  unfold violations. cbn [flat_map].
  destruct (omap _ (properties schema)) as [| r rs]; [| reflexivity].
  cbn [List.app]. apply IH.
Qed.

Lemma validate_returns_first_violation_witness :
  validate_data_against_schema
    [typed_row (lenient user_schema) [VInt 1; VStr "alice"; VStr "alice@example.com"]]
    user_schema world0 = (Ok true, world0)
  /\ validate_data_against_schema
       [typed_row (lenient user_schema) [VInt 2; VStr "bob"; VStr "not-an-email"]]
       user_schema world0 = (Ok false, log_to world0 (ErrInvalidEmail "email")).
Proof.
  assert (Hwf : Forall (fun kd => format_on_string (snd kd)) (properties user_schema)).
  { repeat (apply List.Forall_cons;
            [ eexists; split; [reflexivity | simpl; intros H; first [reflexivity | discriminate H]] | ]).
    apply List.Forall_nil. }
  split.
  - rewrite (validate_returns_first_violation _ user_schema world0 Hwf).
    vm_compute. reflexivity.
  - rewrite (validate_returns_first_violation _ user_schema world0 Hwf).
    vm_compute. reflexivity.
Defined.

(** *** The table sink *)

Import DatabaseManager.

Lemma names_create_visible table_name columns c c' :
  names_create table_name columns c = Ok c' ->
  names_select c' table_name = Ok true.
Proof.
  unfold names_create, names_select.
  destruct (str_in table_name c); [discriminate |].
  intros H. injection H as <-. simpl. rewrite String.eqb_refl. reflexivity.
Qed.

(** C9. For a database in which a table that was created is then reported
    as existing: when [ensure_table_exists] returns, a second call with
    the same schema and name returns too and changes nothing, so it
    executes no statement. The first call executes one [CREATE TABLE] if
    the table was reported missing, and none if it was reported present. *)
Theorem ensure_table_exists_idempotent :
  forall (conn : Type)
         (select_table_exists : conn -> string -> res bool)
         (execute_create_table : string -> list string -> conn -> res conn),
    (forall table_name columns c c',
        execute_create_table table_name columns c = Ok c' ->
        select_table_exists c' table_name = Ok true) ->
    forall (self self' : manager conn) (schema : schema_t) (table_name : string),
      ensure_table_exists select_table_exists execute_create_table
        self schema table_name = Ok self' ->
      ensure_table_exists select_table_exists execute_create_table
        self' schema table_name = Ok self'
      /\ (select_table_exists (connection self) table_name = Ok true ->
          self' = self)
      /\ (select_table_exists (connection self) table_name = Ok false <->
          exists columns,
            executed self' = executed self ++ [CreateTable table_name columns]).
Proof.
  intros conn sel cre Hvisible self self' schema table_name Hfirst.
  unfold ensure_table_exists, table_exists in *.
  destruct (sel (connection self) table_name) as [[|] | e] eqn:Hsel;
    cbn [negb] in Hfirst; try discriminate Hfirst.
  - (* the table was there *)
    injection Hfirst as <-. rewrite Hsel. cbn [negb].
    split; [reflexivity |]. split; [reflexivity |].
    split; [discriminate |].
    intros (columns & Hex).
    apply (f_equal (@List.length statement)) in Hex.
    rewrite List.length_app in Hex. cbn [List.length] in Hex. lia.
  - (* the table was missing *)
    unfold create_table in Hfirst.
    destruct (column_parts (properties schema) (required schema)) as [columns | e];
      [| discriminate Hfirst].
    destruct (cre table_name columns (connection self)) as [c | e] eqn:Hcre;
      [| discriminate Hfirst].
    injection Hfirst as <-. cbn [connection executed].
    rewrite (Hvisible _ _ _ _ Hcre). cbn [negb].
    split; [reflexivity |]. split; [discriminate |].
    split; [| reflexivity].
    intros _. exists columns. reflexivity.
Qed.

(** On an empty database the first call creates the table [users]; the
    second call leaves the manager as the first one left it. *)
Lemma ensure_table_exists_idempotent_witness :
  let self' :=
    {| connection := ["users"];
       executed := [CreateTable "users"
                      ["id SERIAL NOT NULL";
                       "username VARCHAR(255) NOT NULL";
                       "email VARCHAR(255) UNIQUE NOT NULL"]] |} in
  ensure_table_exists names_select names_create
    {| connection := []; executed := [] |} user_schema "users" = Ok self'
  /\ ensure_table_exists names_select names_create self' user_schema "users" = Ok self'.
Proof.
  intros self'.
  assert (Hfirst : ensure_table_exists names_select names_create
                     {| connection := []; executed := [] |} user_schema "users"
                   = Ok self') by (vm_compute; reflexivity).
  split; [exact Hfirst |].
  exact (proj1 (ensure_table_exists_idempotent (list string) names_select names_create
                  names_create_visible _ self' user_schema "users" Hfirst)).
Defined.

(** *** Names made safe *)

Import Utils.

Lemma sub_runs_clean (in_run : bool) (name : string) (c : ascii) :
  In c (list_ascii_of_string (sub_runs in_run name)) -> is_separator c = false.
Proof.
  revert in_run. induction name as [| a rest IH]; intros in_run; simpl.
  - intros [].
  - destruct (is_separator a) eqn:Ha.
    + destruct in_run; simpl.
      * apply IH.
      * intros [<- | H]; [reflexivity | exact (IH true H)].
    + simpl. intros [<- | H]; [exact Ha | exact (IH false H)].
Qed.

Lemma sub_runs_fixed (name : string) :
  (forall c, In c (list_ascii_of_string name) -> is_separator c = false) ->
  forall in_run, sub_runs in_run name = name.
Proof.
  induction name as [| a rest IH]; intros Hclean in_run; simpl; [reflexivity |].
  rewrite (Hclean a) by (simpl; left; reflexivity).
  f_equal. apply IH. intros c Hc. apply Hclean. simpl. right. exact Hc.
Qed.

(** X1. The result of [parameterize_name] holds no space, hyphen, slash or
    dot. *)
Theorem parameterize_name_no_separator :
  forall (name : string) (c : ascii),
    In c (list_ascii_of_string (parameterize_name name)) ->
    c <> " "%char /\ c <> "-"%char /\ c <> "/"%char /\ c <> "."%char.
Proof.
  intros name c Hin. apply sub_runs_clean in Hin.
  unfold is_separator in Hin.
  repeat split; intros ->; discriminate Hin.
Qed.

Lemma parameterize_name_no_separator_witness :
  ("_"%char <> " "%char /\ "_"%char <> "-"%char /\ "_"%char <> "/"%char
   /\ "_"%char <> "."%char)
  /\ parameterize_name "my file - v1.2/users.csv" = "my_file_v1_2_users_csv".
Proof.
  split; [| reflexivity].
  apply (parameterize_name_no_separator "a - b" "_"%char).
  simpl. right. left. reflexivity.
Defined.

(** X2. [parameterize_name] is idempotent: a name it has produced is
    returned unchanged. *)
Theorem parameterize_name_idempotent :
  forall name : string,
    parameterize_name (parameterize_name name) = parameterize_name name.
Proof.
  intros name. unfold parameterize_name at 1.
  apply sub_runs_fixed. intros c Hc. exact (sub_runs_clean false name c Hc).
Qed.

(** X3. [parameterize_name] never lengthens a name, and returns a name
    without separators as it is. *)
Theorem parameterize_name_length :
  forall name : string,
    (String.length (parameterize_name name) <= String.length name)%nat
    /\ ((forall c, In c (list_ascii_of_string name) -> is_separator c = false) ->
        parameterize_name name = name).
Proof.
  intros name. split.
  - unfold parameterize_name. generalize false.
    induction name as [| a rest IH]; intros in_run; simpl; [lia |].
    destruct (is_separator a).
    + destruct in_run; simpl; [specialize (IH true) | specialize (IH true)]; lia.
    + simpl. specialize (IH false). lia.
  - intros Hclean. apply sub_runs_fixed. exact Hclean.
Qed.

Lemma parameterize_name_length_witness :
  parameterize_name "users_2024" = "users_2024".
Proof.
  apply (proj2 (parameterize_name_length "users_2024")).
  intros c Hc. simpl in Hc.
  repeat (destruct Hc as [<- | Hc]; [reflexivity |]). destruct Hc.
Defined.

(** *** The matcher against the meaning of a pattern *)

Import ReSpec.

Lemma append_empty_l (s : string) : "" +:+ s = s.
Proof. reflexivity. Qed.

Lemma append_cons (c : ascii) (s1 s2 : string) :
  String c s1 +:+ s2 = String c (s1 +:+ s2).
Proof. reflexivity. Qed.

Ltac app_simpl := rewrite ?append_cons, ?append_empty_l in *.

Lemma append_empty_r (s : string) : s +:+ "" = s.
Proof. induction s as [| c s IH]; app_simpl; [reflexivity | f_equal; exact IH]. Qed.

Lemma append_assoc (s1 s2 s3 : string) : (s1 +:+ s2) +:+ s3 = s1 +:+ (s2 +:+ s3).
Proof. induction s1 as [| c s1 IH]; app_simpl; [reflexivity | f_equal; exact IH]. Qed.

Lemma append_eq_empty (s1 s2 : string) : s1 +:+ s2 = "" -> s1 = "" /\ s2 = "".
Proof. destruct s1; app_simpl; [intros ->; split; reflexivity | discriminate]. Qed.

Lemma matches_void_inv (s : string) : matches Void s -> False.
Proof. intros H. inversion H. Qed.

Lemma matches_eps_inv (s : string) : matches Eps s -> s = "".
Proof. intros H. inversion H. reflexivity. Qed.

Lemma matches_sym_inv (p : ascii -> bool) (s : string) :
  matches (Sym p) s -> exists c, s = String c "" /\ p c = true.
Proof. intros H. inversion H; subst. eauto. Qed.

Lemma matches_cat_inv (r1 r2 : regex) (s : string) :
  matches (Cat r1 r2) s ->
  exists s1 s2, s = s1 +:+ s2 /\ matches r1 s1 /\ matches r2 s2.
Proof. intros H. inversion H; subst. eauto. Qed.

Lemma matches_alt_inv (r1 r2 : regex) (s : string) :
  matches (Alt r1 r2) s -> matches r1 s \/ matches r2 s.
Proof. intros H. inversion H; subst; auto. Qed.

Lemma nullable_matches (r : regex) : nullable r = true <-> matches r "".
Proof.
  induction r as [| | p | r1 IH1 r2 IH2 | r1 IH1 r2 IH2 | r1 IH1]; simpl.
  - split; [discriminate | intros H; destruct (matches_void_inv _ H)].
  - split; [intros _; constructor | reflexivity].
  - split; [discriminate |].
    intros H. apply matches_sym_inv in H as (c & Heq & _). discriminate Heq.
  - rewrite andb_true_iff, IH1, IH2. split.
    + intros [H1 H2]. exact (MCat r1 r2 "" "" H1 H2).
    + intros H. apply matches_cat_inv in H as (s1 & s2 & Heq & H1 & H2).
      symmetry in Heq. apply append_eq_empty in Heq as [-> ->]. split; assumption.
  - rewrite orb_true_iff, IH1, IH2. split.
    + intros [H | H]; [apply MAltL | apply MAltR]; exact H.
    + apply matches_alt_inv.
  - split; [intros _; constructor | reflexivity].
Qed.

Lemma matches_star_cons (r : regex) (c : ascii) (s : string) :
  matches (Star r) (String c s) ->
  exists s1 s2, s = s1 +:+ s2 /\ matches r (String c s1) /\ matches (Star r) s2.
Proof.
  intros H. remember (Star r) as r' eqn:Hr. remember (String c s) as t eqn:Ht.
  induction H as [| | | | | | r0 s1 s2 H1 _ H2 IH2]; try discriminate.
  injection Hr as ->.
  destruct s1 as [| c1 s1']; app_simpl.
  - apply IH2; [reflexivity | exact Ht].
  - injection Ht as -> <-. exists s1', s2. repeat split; assumption.
Qed.

Lemma deriv_matches (r : regex) :
  forall (c : ascii) (s : string), matches (deriv c r) s <-> matches r (String c s).
Proof.
  induction r as [| | p | r1 IH1 r2 IH2 | r1 IH1 r2 IH2 | r1 IH1]; intros c s; simpl.
  - split; intros H; destruct (matches_void_inv _ H).
  - split; intros H; [destruct (matches_void_inv _ H) |].
    apply matches_eps_inv in H. discriminate H.
  - destruct (p c) eqn:Hp; split; intros H.
    + apply matches_eps_inv in H as ->. constructor. exact Hp.
    + apply matches_sym_inv in H as (c' & Heq & _). injection Heq as -> ->. constructor.
    + destruct (matches_void_inv _ H).
    + apply matches_sym_inv in H as (c' & Heq & Hc). injection Heq as -> ->. congruence.
  - assert (Hcat : matches (Cat (deriv c r1) r2) s ->
                   matches (Cat r1 r2) (String c s)).
    { intros H. apply matches_cat_inv in H as (s1 & s2 & -> & H1 & H2).
      apply IH1 in H1. exact (MCat r1 r2 (String c s1) s2 H1 H2). }
    assert (Hinv : matches (Cat r1 r2) (String c s) ->
                   matches (Cat (deriv c r1) r2) s
                   \/ (matches r1 "" /\ matches r2 (String c s))).
    { intros H. apply matches_cat_inv in H as (s1 & s2 & Heq & H1 & H2).
      destruct s1 as [| c1 s1']; app_simpl.
      - right. subst s2. split; assumption.
      - injection Heq as -> ->. left. apply MCat; [apply IH1; exact H1 | exact H2]. }
    destruct (nullable r1) eqn:Hn.
    + split.
      * intros H. apply matches_alt_inv in H as [H | H]; [apply Hcat; exact H |].
        apply (MCat r1 r2 "" (String c s)); [apply nullable_matches; exact Hn |].
        apply IH2. exact H.
      * intros H. destruct (Hinv H) as [H' | [_ H']];
          [apply MAltL; exact H' | apply MAltR; apply IH2; exact H'].
    + split; [exact Hcat |].
      intros H. destruct (Hinv H) as [H' | [H' _]]; [exact H' |].
      apply nullable_matches in H'. congruence.
  - split; intros H; apply matches_alt_inv in H as [H | H].
    + apply MAltL. apply IH1. exact H.
    + apply MAltR. apply IH2. exact H.
    + apply MAltL. apply IH1. exact H.
    + apply MAltR. apply IH2. exact H.
  - split; intros H.
    + apply matches_cat_inv in H as (s1 & s2 & -> & H1 & H2).
      apply IH1 in H1. exact (MStarCons r1 (String c s1) s2 H1 H2).
    + apply matches_star_cons in H as (s1 & s2 & -> & H1 & H2).
      apply MCat; [apply IH1; exact H1 | exact H2].
Qed.

(** [re_match] holds exactly when a prefix of the string is a word of the
    pattern. *)
Lemma re_match_matches (r : regex) (s : string) :
  re_match r s = true <-> exists p q, s = p +:+ q /\ matches r p.
Proof.
  revert r. induction s as [| c s IH]; intros r; simpl.
  - rewrite orb_false_r, nullable_matches. split.
    + intros H. exists "", "". split; [reflexivity | exact H].
    + intros (p & q & Heq & H). symmetry in Heq.
      apply append_eq_empty in Heq as [-> _]. exact H.
  - rewrite orb_true_iff, nullable_matches, IH. split.
    + intros [H | (p & q & -> & H)].
      * exists "", (String c s). split; [reflexivity | exact H].
      * exists (String c p), q. split; [reflexivity | apply deriv_matches; exact H].
    + intros (p & q & Heq & H). destruct p as [| c' p']; app_simpl.
      * left. exact H.
      * injection Heq as <- ->. right. exists p', q.
        split; [reflexivity | apply deriv_matches; exact H].
Qed.

(** [re_match_dollar] holds exactly when the string, or the string without
    a final line feed, is a word of the pattern. *)
Lemma re_match_dollar_matches (r : regex) (s : string) :
  re_match_dollar r s = true <->
  matches r s \/ exists p, s = p +:+ String "010" "" /\ matches r p.
Proof.
  revert r. induction s as [| c s IH]; intros r; simpl.
  - rewrite nullable_matches. split; [intros H; left; exact H |].
    intros [H | (p & Heq & _)]; [exact H |].
    symmetry in Heq. apply append_eq_empty in Heq as [_ Heq]. discriminate Heq.
  - rewrite orb_true_iff, !andb_true_iff, nullable_matches, IH.
    rewrite Ascii.eqb_eq, String.eqb_eq. split.
    + intros [[[H ->] ->] | [H | (p & -> & H)]].
      * right. exists "". split; [reflexivity | exact H].
      * left. apply deriv_matches. exact H.
      * right. exists (String c p). split; [reflexivity | apply deriv_matches; exact H].
    + intros [H | (p & Heq & H)].
      * right. left. apply deriv_matches. exact H.
      * destruct p as [| c' p']; app_simpl.
        -- injection Heq as -> ->. left. repeat split. exact H.
        -- injection Heq as <- ->. right. right. exists p'.
           split; [reflexivity | apply deriv_matches; exact H].
Qed.

(** *** What the validator's patterns accept *)

Import Shapes.

Lemma matches_lit (c : ascii) (s : string) :
  matches (Lit c) s <-> s = String c "".
Proof.
  unfold Lit. split.
  - intros H. apply matches_sym_inv in H as (c' & -> & Hc).
    apply Ascii.eqb_eq in Hc. subst c'. reflexivity.
  - intros ->. constructor. apply Ascii.eqb_refl.
Qed.

Lemma matches_star_sym (p : ascii -> bool) (s : string) :
  matches (Star (Sym p)) s <-> all_chars p s = true.
Proof.
  split.
  - intros H. remember (Star (Sym p)) as r eqn:Hr.
    induction H as [| | | | | | r0 s1 s2 H1 _ H2 IH2]; try discriminate.
    + reflexivity.
    + injection Hr as ->.
      apply matches_sym_inv in H1 as (c & -> & Hc). app_simpl.
      simpl. rewrite Hc. apply IH2. reflexivity.
  - induction s as [| c s IH]; simpl.
    + intros _. constructor.
    + intros H. apply andb_true_iff in H as [Hc Hs].
      apply (MStarCons (Sym p) (String c "") s); [constructor; exact Hc | apply IH; exact Hs].
Qed.

Lemma matches_plus_sym (p : ascii -> bool) (s : string) :
  matches (Plus (Sym p)) s <-> s <> "" /\ all_chars p s = true.
Proof.
  unfold Plus. split.
  - intros H. apply matches_cat_inv in H as (s1 & s2 & -> & H1 & H2).
    apply matches_sym_inv in H1 as (c & -> & Hc). app_simpl.
    apply matches_star_sym in H2. split; [discriminate |].
    simpl. rewrite Hc. exact H2.
  - intros [Hne H]. destruct s as [| c s]; [contradiction |].
    simpl in H. apply andb_true_iff in H as [Hc Hs].
    apply (MCat (Sym p) (Star (Sym p)) (String c "") s);
      [constructor; exact Hc | apply matches_star_sym; exact Hs].
Qed.

Lemma matches_rep_sym (p : ascii -> bool) (n : nat) :
  forall s : string,
    matches (Rep n (Sym p)) s <-> String.length s = n /\ all_chars p s = true.
Proof.
  induction n as [| n IH]; intros s; simpl.
  - split.
    + intros H. apply matches_eps_inv in H as ->. split; reflexivity.
    + intros [Hlen _]. destruct s; [constructor | discriminate Hlen].
  - split.
    + intros H. apply matches_cat_inv in H as (s1 & s2 & -> & H1 & H2).
      apply matches_sym_inv in H1 as (c & -> & Hc). app_simpl.
      apply IH in H2 as [Hlen Hall]. simpl. rewrite Hc, Hlen, Hall. split; reflexivity.
    + intros [Hlen H]. destruct s as [| c s]; [discriminate Hlen |].
      simpl in Hlen, H. apply andb_true_iff in H as [Hc Hs].
      apply (MCat (Sym p) (Rep n (Sym p)) (String c "") s); [constructor; exact Hc |].
      apply IH. split; [lia | exact Hs].
Qed.

(** X4. [is_valid_email] accepts a string exactly when it begins with
    [a@b.c], where [a], [b] and [c] are non-empty and hold no [@]; what
    follows is not examined. *)
Theorem is_valid_email_shape :
  forall s : string,
    is_valid_email (VStr s) = Ok true <->
    exists a b c rest : string,
      s = a +:+ "@" +:+ b +:+ "." +:+ c +:+ rest
      /\ at_free a /\ at_free b /\ at_free c.
Proof.
  intros s. unfold is_valid_email.
  assert (Hok : Ok (re_match email_pattern s) = Ok true
                <-> re_match email_pattern s = true)
    by (split; [intros H; injection H as ->; reflexivity | intros ->; reflexivity]).
  rewrite Hok, re_match_matches. unfold email_pattern, at_free. split.
  - intros (p & rest & -> & H).
    apply matches_cat_inv in H as (a & p1 & -> & Ha & H).
    apply matches_cat_inv in H as (x & p2 & -> & Hx & H).
    apply matches_cat_inv in H as (b & p3 & -> & Hb & H).
    apply matches_cat_inv in H as (y & c & -> & Hy & Hc).
    apply matches_lit in Hx as ->. apply matches_lit in Hy as ->.
    apply matches_plus_sym in Ha, Hb, Hc.
    exists a, b, c, rest. split; [| tauto].
    rewrite !append_assoc. reflexivity.
  - intros (a & b & c & rest & -> & Ha & Hb & Hc).
    exists (a +:+ "@" +:+ b +:+ "." +:+ c), rest.
    split; [rewrite !append_assoc; reflexivity |].
    apply MCat; [apply matches_plus_sym; exact Ha |].
    apply MCat; [apply matches_lit; reflexivity |].
    apply MCat; [apply matches_plus_sym; exact Hb |].
    apply MCat; [apply matches_lit; reflexivity |].
    apply matches_plus_sym; exact Hc.
Qed.

Lemma zone_matches (tz : string) :
  matches (Opt (Alt (Lit "Z")
                    (Cat (Sym sign_class)
                    (Cat (Rep 2 d) (Cat (Lit ":") (Rep 2 d)))))) tz
  <-> zone_shape tz.
Proof.
  unfold Opt, zone_shape, digits, d. split.
  - intros H. apply matches_alt_inv in H as [H | H];
      [| apply matches_eps_inv in H; left; exact H].
    apply matches_alt_inv in H as [H | H];
      [apply matches_lit in H; right; left; exact H |].
    right. right.
    apply matches_cat_inv in H as (x & p1 & -> & Hx & H).
    apply matches_cat_inv in H as (oh & p2 & -> & Hoh & H).
    apply matches_cat_inv in H as (y & om & -> & Hy & Hom).
    apply matches_sym_inv in Hx as (sg & -> & Hsg).
    apply matches_lit in Hy as ->.
    apply matches_rep_sym in Hoh, Hom.
    exists sg, oh, om. split; [reflexivity |]. split; [| tauto].
    unfold sign_class in Hsg. apply orb_true_iff in Hsg.
    destruct Hsg as [Hs | Hs]; apply Ascii.eqb_eq in Hs; [left | right]; exact Hs.
  - intros [-> | [-> | (sg & oh & om & -> & Hsg & Hoh & Hom)]].
    + apply MAltR. constructor.
    + apply MAltL. apply MAltL. apply matches_lit. reflexivity.
    + apply MAltL. apply MAltR.
      apply (MCat _ _ (String sg "") (oh +:+ ":" +:+ om)).
      * constructor. unfold sign_class.
        destruct Hsg as [-> | ->]; reflexivity.
      * apply MCat; [apply matches_rep_sym; exact Hoh |].
        apply MCat; [apply matches_lit; reflexivity | apply matches_rep_sym; exact Hom].
Qed.

Lemma datetime_pattern_matches (core : string) :
  matches datetime_pattern core <-> datetime_shape core.
Proof.
  unfold datetime_pattern, datetime_shape. split.
  - intros H.
    apply matches_cat_inv in H as (y & p1 & -> & Hy & H).
    apply matches_cat_inv in H as (x1 & p2 & -> & Hx1 & H).
    apply matches_cat_inv in H as (mo & p3 & -> & Hmo & H).
    apply matches_cat_inv in H as (x2 & p4 & -> & Hx2 & H).
    apply matches_cat_inv in H as (dd & p5 & -> & Hdd & H).
    apply matches_cat_inv in H as (x3 & p6 & -> & Hx3 & H).
    apply matches_cat_inv in H as (hh & p7 & -> & Hhh & H).
    apply matches_cat_inv in H as (x4 & p8 & -> & Hx4 & H).
    apply matches_cat_inv in H as (mi & p9 & -> & Hmi & H).
    apply matches_cat_inv in H as (x5 & p10 & -> & Hx5 & H).
    apply matches_cat_inv in H as (ss & tz & -> & Hss & Htz).
    apply matches_lit in Hx1 as ->, Hx2 as ->, Hx3 as ->, Hx4 as ->, Hx5 as ->.
    unfold d in *. apply matches_rep_sym in Hy, Hmo, Hdd, Hhh, Hmi, Hss.
    apply zone_matches in Htz.
    exists y, mo, dd, hh, mi, ss, tz. unfold digits. tauto.
  - intros (y & mo & dd & hh & mi & ss & tz & -> & Hy & Hmo & Hdd & Hhh & Hmi & Hss & Htz).
    unfold digits, d in *.
    repeat (apply MCat;
            [first [apply matches_rep_sym; assumption | apply matches_lit; reflexivity] |]).
    apply zone_matches. exact Htz.
Qed.

(** X5. [is_valid_datetime] accepts a string exactly when the string, or
    the string without one final line feed, reads [YYYY-MM-DDTHH:MM:SS]
    followed by nothing, by [Z], or by a sign and [HH:MM]; the digits are
    not checked against the calendar or the clock. *)
Theorem is_valid_datetime_shape :
  forall s : string,
    is_valid_datetime (VStr s) = Ok true <->
    (datetime_shape s \/
     exists core, s = core +:+ String "010" "" /\ datetime_shape core).
Proof.
  intros s. unfold is_valid_datetime.
  assert (Hok : Ok (re_match_dollar datetime_pattern s) = Ok true
                <-> re_match_dollar datetime_pattern s = true)
    by (split; [intros H; injection H as ->; reflexivity | intros ->; reflexivity]).
  rewrite Hok, re_match_dollar_matches, datetime_pattern_matches.
  split; (intros [H | (core & Heq & H)]; [left; exact H | right; exists core]);
    (split; [exact Heq | apply datetime_pattern_matches; exact H]).
Qed.

Lemma is_valid_email_shape_witness :
  is_valid_email (VStr "alice@example.com trailing @ text") = Ok true.
Proof.
  apply (proj2 (is_valid_email_shape "alice@example.com trailing @ text")).
  exists "alice", "example", "com", " trailing @ text".
  split; [reflexivity |].
  repeat split; first [discriminate | reflexivity].
Defined.

Lemma is_valid_datetime_shape_witness :
  is_valid_datetime (VStr "2024-99-99T25:61:61+99:99") = Ok true.
Proof.
  apply (proj2 (is_valid_datetime_shape "2024-99-99T25:61:61+99:99")).
  left. exists "2024", "99", "99", "25", "61", "61", "+99:99".
  split; [reflexivity |].
  repeat (split; [split; reflexivity |]).
  right. right. exists "+"%char, "99", "99".
  split; [reflexivity |]. split; [left; reflexivity |].
  split; split; reflexivity.
Defined.

(** The validator run as a search for the first violation. *)
Lemma validate_data_violations data schema w :
  Forall (fun kd => format_on_string (snd kd)) (properties schema) ->
  validate_data_against_schema data schema w =
  match violations data schema with
  | [] => (Ok true, w)
  | r :: _ => (Ok false, log_to w r)
  end.
Proof.
  intros Hwf. revert w.
  induction data as [| row rest IH]; intros w; [reflexivity |].
  cbn [validate_data_against_schema]. unfold bind.
  rewrite (validate_fields_violation _ _ _ _ Hwf).
  unfold violations. cbn [flat_map].
  destruct (omap _ (properties schema)) as [| r rs]; [| reflexivity].
  cbn [List.app]. apply IH.
Qed.

Lemma omap_nonempty {A B} (f : A -> option B) (l : list A) (a : A) (b : B) :
  In a l -> f a = Some b -> omap f l <> [].
Proof.
  induction l as [| x l IH]; [intros [] |].
  intros [-> | Hin] Hf; cbn [omap list_omap].
  - rewrite Hf. discriminate.
  - destruct (f x); [discriminate | apply IH; assumption].
Qed.

Lemma violation_of_none row_dict req key definition t :
  def_type definition = Some t ->
  In t ["integer"; "number"; "string"; "boolean"] ->
  default VNone (row_dict !! key) = VNone ->
  exists r, violation row_dict req key definition = Some r.
Proof.
  intros Ht Hin Hnone. unfold violation.
  destruct (negb (bool_decide (is_Some (row_dict !! key))) && str_in key req);
    [eauto |].
  rewrite Ht, Hnone. unfold type_mismatch.
  simpl in Hin. decompose [or] Hin; subst; simpl; eauto; contradiction.
Qed.

(** X6. Under a schema with formats on string fields only: when some row
    lacks a field of type integer, number, string or boolean, or holds
    [None] for it, validation returns [False] and logs one record, whether
    or not the field is listed as required. *)
Theorem validate_rejects_none_for_typed_field :
  forall (data : list (gmap string pyval)) (schema : schema_t) (w : world)
         (row_dict : gmap string pyval) (key t : string) (definition : field_def),
    Forall (fun kd => format_on_string (snd kd)) (properties schema) ->
    In row_dict data ->
    In (key, definition) (properties schema) ->
    def_type definition = Some t ->
    In t ["integer"; "number"; "string"; "boolean"] ->
    default VNone (row_dict !! key) = VNone ->
    exists r, validate_data_against_schema data schema w = (Ok false, log_to w r).
Proof.
  intros data schema w row_dict key t definition Hwf Hrow Hfield Ht Hin Hnone.
  rewrite (validate_data_violations data schema w Hwf).
  destruct (violation_of_none row_dict (required schema) key definition t Ht Hin Hnone)
    as (r0 & Hr0).
  assert (Hne : violations data schema <> []).
  { unfold violations. clear w Hwf.
    induction data as [| x rest IH]; [destruct Hrow |].
    cbn [flat_map]. intros Hnil. apply List.app_eq_nil in Hnil as [Hx Hrest].
    destruct Hrow as [-> | Hrow].
    - revert Hx. apply (omap_nonempty _ _ (key, definition) r0 Hfield). exact Hr0.
    - exact (IH Hrow Hrest). }
  destruct (violations data schema) as [| r rs]; [contradiction |].
  exists r. reflexivity.
Qed.

Lemma validate_rejects_none_for_typed_field_witness :
  exists r,
    validate_data_against_schema
      [{[ "a" := VInt 1; "b" := VNone ]}] measure_schema world0
    = (Ok false, log_to world0 r).
Proof.
  apply (validate_rejects_none_for_typed_field
           [{[ "a" := VInt 1; "b" := VNone ]}] measure_schema world0
           {[ "a" := VInt 1; "b" := VNone ]} "b" "number" (field "number" None)).
  - repeat (apply List.Forall_cons;
            [ eexists; split; [reflexivity | simpl; intros H; discriminate H] | ]).
    apply List.Forall_nil.
  - simpl. left. reflexivity.
  - simpl. right. left. reflexivity.
  - reflexivity.
  - simpl. right. left. reflexivity.
  - vm_compute. reflexivity.
Defined.

(** *** Invariants of the row loop *)

Import Fields.

Lemma bind_ok_inv {A B} (m : M A) (k : A -> M B) (w w' : world) (b : B) :
  bind m k w = (Ok b, w') ->
  exists a w1, m w = (Ok a, w1) /\ k a w1 = (Ok b, w').
Proof.
  unfold bind. destruct (m w) as [[a | e] w1]; [eauto | discriminate].
Qed.

Lemma bind_inv {A B} (m : M A) (k : A -> M B) (w w' : world) (r : res B) :
  bind m k w = (r, w') ->
  (exists e, m w = (Raise e, w') /\ r = Raise e)
  \/ (exists a w1, m w = (Ok a, w1) /\ k a w1 = (r, w')).
Proof.
  unfold bind. destruct (m w) as [[a | e] w1].
  - right. eauto.
  - intros H. injection H as <- <-. left. eauto.
Qed.

Lemma process_cells_extends dates self row_number pairs :
  forall processed_row w pr w',
    process_cells dates self row_number pairs processed_row w = (Ok (Some pr), w') ->
    exists vals,
      pr = processed_row ++ vals
      /\ (List.length vals <= List.length pairs)%nat
      /\ (forallb (fun p => has_rule (snd (snd p))) pairs = true ->
          List.length vals = List.length pairs).
Proof.
  induction pairs as [| [column [key value]] rest IH]; intros acc w pr w' H.
  - injection H as <- <-. exists []. rewrite List.app_nil_r. repeat split; auto.
  - cbn [process_cells] in H. cbn [forallb snd]. unfold has_rule.
    assert (Hstep : forall v w1,
               process_cells dates self row_number rest (acc ++ [v]) w1
               = (Ok (Some pr), w') ->
               exists vals, pr = acc ++ vals
                 /\ (List.length vals <= S (List.length rest))%nat
                 /\ (forallb (fun p => has_rule (snd (snd p))) rest = true ->
                     List.length vals = S (List.length rest))).
    { intros v w1 Hk. apply IH in Hk as (vals & -> & Hle & Heq).
      exists (v :: vals). rewrite <- List.app_assoc. cbn [List.app List.length].
      split; [reflexivity |]. split; [lia |]. intros Hall. rewrite (Heq Hall). reflexivity. }
    destruct (def_enum value) as [[| e es] |].
    + destruct (is_format (def_format value) "date-time"); cbn [orb andb].
      * apply bind_ok_inv in H as (v & w1 & _ & Hk).
        destruct (Hstep v w1 Hk) as (vals & ? & ? & ?). exists vals. auto.
      * destruct (processing_map_get (def_type value)).
        -- apply bind_ok_inv in H as (v & w1 & _ & Hk).
           destruct (Hstep v w1 Hk) as (vals & ? & ? & ?). exists vals. auto.
        -- apply bind_ok_inv in H as (v & w1 & _ & Hk).
           destruct (strict_mode self); [discriminate Hk |].
           apply IH in Hk as (vals & -> & Hle & _).
           exists vals. cbn [List.length]. split; [reflexivity |].
           split; [lia | discriminate].
    + apply bind_ok_inv in H as (v & w1 & _ & Hk).
      destruct (Hstep v w1 Hk) as (vals & ? & ? & ?). exists vals. auto.
    + destruct (is_format (def_format value) "date-time"); cbn [orb andb].
      * apply bind_ok_inv in H as (v & w1 & _ & Hk).
        destruct (Hstep v w1 Hk) as (vals & ? & ? & ?). exists vals. auto.
      * destruct (processing_map_get (def_type value)).
        -- apply bind_ok_inv in H as (v & w1 & _ & Hk).
           destruct (Hstep v w1 Hk) as (vals & ? & ? & ?). exists vals. auto.
        -- apply bind_ok_inv in H as (v & w1 & _ & Hk).
           destruct (strict_mode self); [discriminate Hk |].
           apply IH in Hk as (vals & -> & Hle & _).
           exists vals. cbn [List.length]. split; [reflexivity |].
           split; [lia | discriminate].
Qed.

Lemma process_cells_fits dates self row_number row w pr w' :
  process_cells dates self row_number (zip row (properties (schema self))) [] w
  = (Ok (Some pr), w') ->
  tuple_fits self row pr.
Proof.
  intros H. apply process_cells_extends in H as (vals & -> & Hle & Heq).
  cbn [List.app]. unfold tuple_fits.
  rewrite length_zip in Hle, Heq. split; [exact Hle |].
  intros Hall. apply Heq.
  clear -Hall. revert row.
  induction (properties (schema self)) as [| kd props IH]; intros row.
  - destruct row; reflexivity.
  - destruct row as [| c row]; [reflexivity |].
    cbn [forallb] in Hall. apply andb_true_iff in Hall as [Hkd Hall].
    cbn [zip zip_with forallb snd]. rewrite Hkd. exact (IH Hall row).
Qed.

Lemma process_rows_extends dates self rows :
  forall row_number processed_data w batch w',
    process_rows dates self rows row_number processed_data w = (Ok (Some batch), w') ->
    exists new,
      batch = processed_data ++ new /\ Forall2 (tuple_fits self) rows new.
Proof.
  induction rows as [| row rest IH]; intros row_number acc w batch w' H.
  - injection H as <- <-. exists []. rewrite List.app_nil_r. split; [reflexivity | constructor].
  - cbn [process_rows] in H.
    apply bind_ok_inv in H as (cells & w1 & Hcells & H).
    destruct cells as [pr |]; [| discriminate H].
    apply bind_ok_inv in H as (ok & w2 & _ & H).
    apply bind_ok_inv in H as (stop & w3 & _ & H).
    destruct stop; [discriminate H |].
    apply IH in H as (new & -> & Hnew).
    exists (pr :: new). rewrite <- List.app_assoc. split; [reflexivity |].
    constructor; [| exact Hnew].
    exact (process_cells_fits _ _ _ _ _ _ _ Hcells).
Qed.

(** X7. [process_csv] calls the sink's insert at most once, and not at
    all when the row loop raises or returns early. When it calls it, what
    the sink returns or raises is the outcome of [process_csv], and the
    batch has one tuple for each data row, in order; a tuple is no longer
    than its row and than the schema, and has exactly the length of the
    shorter of the two when every field of the schema has a coercion
    rule. *)
Theorem process_csv_single_insert :
  forall (dates : pyval -> res string) (self : CSVProcessor.t)
         (first_row : list string) (remaining : list (list string))
         (w w' : world) (r : res unit),
    process_csv dates self (first_row :: remaining) w = (r, w') ->
    inserted w' = inserted w
    \/ (exists processed_data : batch,
          inserted w' = inserted w ++ [processed_data]
          /\ r = db_manager self processed_data
          /\ Forall2 (tuple_fits self) (data_rows self first_row remaining)
               processed_data).
Proof.
  intros dates self first_row remaining w w' r H.
  unfold process_csv in H. fold (data_rows self first_row remaining) in H.
  pose proof (keeps_sink_process_rows dates self (data_rows self first_row remaining)
                0 [] w) as Hkeep.
  apply bind_inv in H as [(e & Hm & ->) | (result & w1 & Hm & H)].
  - left. rewrite Hm in Hkeep. exact Hkeep.
  - rewrite Hm in Hkeep. cbn [snd] in Hkeep.
    destruct result as [processed_data |].
    + right. unfold insert_into_postgres in H. injection H as <- <-.
      exists processed_data. cbn [inserted].
      rewrite Hkeep. split; [reflexivity |]. split; [reflexivity |].
      apply process_rows_extends in Hm as (new & -> & Hnew). exact Hnew.
    + left. injection H as <- <-. exact Hkeep.
Qed.

Lemma process_csv_single_insert_witness :
  inserted (snd (process_csv no_dates (lenient_refused measure_schema)
                   [["1"; "2.5"; "x"]; ["7"]] world0))
  = inserted world0
  \/ (exists processed_data : batch,
        inserted (snd (process_csv no_dates (lenient_refused measure_schema)
                         [["1"; "2.5"; "x"]; ["7"]] world0))
        = inserted world0 ++ [processed_data]
        /\ fst (process_csv no_dates (lenient_refused measure_schema)
                  [["1"; "2.5"; "x"]; ["7"]] world0)
           = db_manager (lenient_refused measure_schema) processed_data
        /\ Forall2 (tuple_fits (lenient_refused measure_schema))
             (data_rows (lenient_refused measure_schema) ["1"; "2.5"; "x"] [["7"]])
             processed_data).
Proof.
  apply (process_csv_single_insert no_dates (lenient_refused measure_schema)
           ["1"; "2.5"; "x"] [["7"]] world0).
  apply surjective_pairing.
Defined.

(** *** Strict mode: a run that inserts is a clean run *)

Ltac dead H := cbv [bind logging_error ret raise lift] in H; discriminate H.

Ltac skip_logged H :=
  repeat match type of H with
         | (if ?b then _ else _) _ = _ => destruct b; [dead H |]
         end.

Lemma format_guard_quiet (b : bool) (check : res bool) (w w1 : world) (bad : bool) :
  (if b then let* ok := lift check in ret (negb ok) else ret false) w = (Ok bad, w1) ->
  w1 = w.
Proof.
  destruct b; cbv [bind lift ret]; [destruct check |]; congruence.
Qed.

Lemma validate_field_true_quiet row_dict req key definition w w' :
  validate_field row_dict req key definition w = (Ok true, w') -> w' = w.
Proof.
  unfold validate_field. intros H.
  skip_logged H.
  destruct (def_type definition) as [t |]; [| dead H].
  skip_logged H.
  apply bind_ok_inv in H as (bad & w1 & Hb & H).
  apply format_guard_quiet in Hb as ->.
  destruct bad; [dead H |].
  apply bind_ok_inv in H as (bad & w1 & Hb & H).
  apply format_guard_quiet in Hb as ->.
  destruct bad; [dead H |].
  cbv [ret] in H. congruence.
Qed.

Lemma validate_fields_true_quiet row_dict req props :
  forall w w', validate_fields row_dict req props w = (Ok true, w') -> w' = w.
Proof.
  induction props as [| [key definition] rest IH]; intros w w' H.
  - injection H as <-. reflexivity.
  - cbn [validate_fields] in H.
    apply bind_ok_inv in H as (ok & w1 & Hfield & H).
    destruct ok; [| discriminate H].
    apply validate_field_true_quiet in Hfield as ->. exact (IH _ _ H).
Qed.

Lemma validate_true_quiet data schema :
  forall w w', validate_data_against_schema data schema w = (Ok true, w') -> w' = w.
Proof.
  induction data as [| row rest IH]; intros w w' H.
  - injection H as <-. reflexivity.
  - cbn [validate_data_against_schema] in H.
    apply bind_ok_inv in H as (ok & w1 & Hfields & H).
    destruct ok; [| discriminate H].
    apply validate_fields_true_quiet in Hfields as ->. exact (IH _ _ H).
Qed.

(** The rules reached through [SCHEMA_PROCESSING_MAP], and the enum rule,
    log only on the way to an exception. *)
Lemma call_method_ok_quiet self name cell w v w' :
  call_method self name cell w = (Ok v, w') -> w' = w.
Proof.
  destruct name; cbn [call_method];
    unfold process_numeric, process_generic_cell, process_boolean; intros H.
  - destruct (py_in cell NULL_VALUES).
    + destruct (strict_mode self); [dead H | cbv [ret] in H; congruence].
    + cbv [bind lift ret] in H.
      destruct (py_int cell); [| discriminate H].
      destruct (py_float cell) as [f |]; [| discriminate H].
      destruct (float_eq_Z f a); congruence.
  - destruct (negb (truthy cell)); [| cbv [ret] in H; congruence].
    destruct (strict_mode self); [dead H |].
    repeat match type of H with
           | (if ?b then _ else _) _ = _ => destruct b
           end; cbv [ret] in H; congruence.
  - destruct (py_in cell TRUE_VALUES); [cbv [ret] in H; congruence |].
    destruct (py_in cell FALSE_VALUES); [cbv [ret] in H; congruence |].
    destruct (strict_mode self); [dead H | cbv [ret] in H; congruence].
Qed.

Lemma process_enum_ok_quiet self cell enum_values w v w' :
  process_enum self cell enum_values w = (Ok v, w') -> w' = w.
Proof.
  unfold process_enum. intros H.
  destruct (py_in cell enum_values); [cbv [ret] in H; congruence |].
  destruct (strict_mode self); [dead H | cbv [ret] in H; congruence].
Qed.

Lemma process_datetime_strict_quiet dates self cell w v w' :
  strict_mode self = true ->
  process_datetime dates self cell w = (Ok v, w') -> w' = w.
Proof.
  intros Hstrict. unfold process_datetime. rewrite Hstrict. intros H.
  destruct (dates cell); [cbv [ret] in H; congruence | dead H].
Qed.

Lemma process_cells_strict_quiet dates self row_number pairs :
  strict_mode self = true ->
  forall processed_row w pr w',
    process_cells dates self row_number pairs processed_row w = (Ok (Some pr), w') ->
    w' = w.
Proof.
  intros Hstrict.
  induction pairs as [| [column [key value]] rest IH]; intros acc w pr w' H.
  - injection H as _ <-. reflexivity.
  - cbn [process_cells] in H. rewrite Hstrict in H.
    destruct (def_enum value) as [[| e es] |].
    + destruct (is_format (def_format value) "date-time").
      * apply bind_ok_inv in H as (v & w1 & Hv & Hk).
        apply (process_datetime_strict_quiet _ _ _ _ _ _ Hstrict) in Hv as ->.
        exact (IH _ _ _ _ Hk).
      * destruct (processing_map_get (def_type value)).
        -- apply bind_ok_inv in H as (v & w1 & Hv & Hk).
           apply call_method_ok_quiet in Hv as ->. exact (IH _ _ _ _ Hk).
        -- apply bind_ok_inv in H as (v & w1 & _ & Hk). discriminate Hk.
    + apply bind_ok_inv in H as (v & w1 & Hv & Hk).
      apply process_enum_ok_quiet in Hv as ->. exact (IH _ _ _ _ Hk).
    + destruct (is_format (def_format value) "date-time").
      * apply bind_ok_inv in H as (v & w1 & Hv & Hk).
        apply (process_datetime_strict_quiet _ _ _ _ _ _ Hstrict) in Hv as ->.
        exact (IH _ _ _ _ Hk).
      * destruct (processing_map_get (def_type value)).
        -- apply bind_ok_inv in H as (v & w1 & Hv & Hk).
           apply call_method_ok_quiet in Hv as ->. exact (IH _ _ _ _ Hk).
        -- apply bind_ok_inv in H as (v & w1 & _ & Hk). discriminate Hk.
Qed.

Lemma process_rows_strict_clean dates self rows :
  strict_mode self = true ->
  forall row_number processed_data w batch w',
    process_rows dates self rows row_number processed_data w = (Ok (Some batch), w') ->
    w' = w /\
    exists new,
      batch = processed_data ++ new
      /\ Forall (fun pr =>
                   validate_data_against_schema [typed_row self pr] (schema self) w
                   = (Ok true, w)) new.
Proof.
  intros Hstrict.
  induction rows as [| row rest IH]; intros row_number acc w batch w' H.
  - injection H as <- <-. split; [reflexivity |].
    exists []. rewrite List.app_nil_r. split; [reflexivity | constructor].
  - cbn [process_rows] in H.
    apply bind_ok_inv in H as (cells & w1 & Hcells & H).
    destruct cells as [pr |]; [| discriminate H].
    apply (process_cells_strict_quiet _ _ _ _ Hstrict) in Hcells as ->.
    apply bind_ok_inv in H as (ok & w2 & Hvalid & H).
    destruct ok.
    + pose proof (validate_true_quiet _ _ _ _ Hvalid) as ->.
      cbn [negb] in H. unfold bind at 1, ret at 1 in H.
      apply IH in H as (-> & new & -> & Hnew).
      split; [reflexivity |].
      exists (pr :: new). rewrite <- List.app_assoc. split; [reflexivity |].
      constructor; [exact Hvalid | exact Hnew].
    + cbn [negb] in H. rewrite Hstrict in H.
      unfold bind, logging_error, ret in H. discriminate H.
Qed.

(** X8. Strict mode. If [process_csv] calls the sink's insert, then the
    run logged nothing, every tuple of the batch comes from a row whose
    typed row the validator accepted, and the outcome of [process_csv] is
    what the sink returned or raised. *)
Theorem strict_insert_means_clean_run :
  forall (dates : pyval -> res string) (self : CSVProcessor.t)
         (first_row : list string) (remaining : list (list string))
         (w w' : world) (r : res unit),
    strict_mode self = true ->
    process_csv dates self (first_row :: remaining) w = (r, w') ->
    inserted w' = inserted w
    \/ (exists processed_data : batch,
          r = db_manager self processed_data /\
          w' = {| logs := logs w; inserted := inserted w ++ [processed_data] |}
          /\ Forall (fun pr =>
                       validate_data_against_schema [typed_row self pr] (schema self) w
                       = (Ok true, w)) processed_data).
Proof.
  intros dates self first_row remaining w w' r Hstrict H.
  unfold process_csv in H. fold (data_rows self first_row remaining) in H.
  pose proof (keeps_sink_process_rows dates self (data_rows self first_row remaining)
                0 [] w) as Hkeep.
  apply bind_inv in H as [(e & Hm & ->) | (result & w1 & Hm & H)].
  - left. rewrite Hm in Hkeep. exact Hkeep.
  - rewrite Hm in Hkeep. cbn [snd] in Hkeep.
    destruct result as [processed_data |].
    + right. unfold insert_into_postgres in H. injection H as <- <-.
      exists processed_data. split; [reflexivity |].
      apply (process_rows_strict_clean _ _ _ Hstrict) in Hm as (-> & new & -> & Hnew).
      split; [reflexivity | exact Hnew].
    + left. injection H as <- <-. exact Hkeep.
Qed.

Lemma strict_insert_means_clean_run_witness :
  inserted (snd (process_csv no_dates (strict user_schema)
                   [["1"; "alice"; "alice@example.com"]] world0))
  = inserted world0
  \/ (exists processed_data : batch,
        fst (process_csv no_dates (strict user_schema)
               [["1"; "alice"; "alice@example.com"]] world0)
        = db_manager (strict user_schema) processed_data /\
        snd (process_csv no_dates (strict user_schema)
               [["1"; "alice"; "alice@example.com"]] world0)
        = {| logs := logs world0; inserted := inserted world0 ++ [processed_data] |}
        /\ Forall (fun pr =>
                     validate_data_against_schema
                       [typed_row (strict user_schema) pr] user_schema world0
                     = (Ok true, world0)) processed_data).
Proof.
  apply (strict_insert_means_clean_run no_dates (strict user_schema)
           ["1"; "alice"; "alice@example.com"] [] world0).
  - reflexivity.
  - apply surjective_pairing.
Defined.

(** *** Numeric cells that are strings *)

Lemma is_digit_bounds (c : ascii) :
  is_digit c = true -> 48 <= code c <= 57.
Proof. unfold is_digit. intros H. apply andb_true_iff in H as [H1 H2]. lia. Qed.

Lemma take_digitpart_nonneg (l : list ascii) :
  forall acc cnt prev m k rest,
    0 <= acc -> take_digitpart acc cnt prev l = Some (m, k, rest) -> 0 <= m.
Proof.
  induction l as [| c l IH]; intros acc cnt prev m k rest Hacc; cbn [take_digitpart].
  - destruct (prev || Nat.eqb cnt 0); [| discriminate]. intros H. injection H as <- _ _. exact Hacc.
  - destruct (is_digit c) eqn:Hc.
    + apply IH. apply is_digit_bounds in Hc. unfold digit_value. lia.
    + destruct (Ascii.eqb c "_").
      * destruct prev; [| discriminate].
        destruct l as [| d l']; [discriminate |].
        destruct (is_digit d); [| discriminate]. apply IH. exact Hacc.
      * intros H. injection H as <- _ _. exact Hacc.
Qed.

Lemma take_digitpart_first (l : list ascii) acc m k rest :
  take_digitpart acc 0 false l = Some (m, S k, rest) ->
  exists c l', l = c :: l' /\ is_digit c = true.
Proof.
  destruct l as [| c l']; cbn [take_digitpart]; [discriminate |].
  destruct (is_digit c) eqn:Hc; [eauto |].
  destruct (Ascii.eqb c "_"); discriminate.
Qed.

Lemma digit_is_no_letter (c : ascii) :
  is_digit c = true ->
  Ascii.eqb (lower c) "i" = false /\ Ascii.eqb (lower c) "n" = false.
Proof.
  destruct c as [b0 b1 b2 b3 b4 b5 b6 b7].
  destruct b0, b1, b2, b3, b4, b5, b6, b7; vm_compute; intros H;
    first [discriminate H | split; reflexivity].
Qed.

Lemma digit_starts_no_word (c : ascii) (l : list ascii) :
  is_digit c = true ->
  is_word "inf" (c :: l) = false
  /\ is_word "infinity" (c :: l) = false
  /\ is_word "nan" (c :: l) = false.
Proof.
  intros Hc. destruct (digit_is_no_letter c Hc) as [Hi Hn].
  unfold is_word. cbn [map string_of_list_ascii String.eqb].
  rewrite Hi, Hn. repeat split.
Qed.

Lemma py_int_str (s : string) (n : Z) :
  py_int (VStr s) = Ok n <-> int_of_literal s = Some n.
Proof.
  unfold py_int, int_of_literal.
  destruct (parse_int s); split; intros H; first [discriminate H | injection H as ->; reflexivity].
Qed.


(** A literal that [int] accepts is accepted by [float] too, with the
    double nearest to the integer, or with [-0.0] for a negative zero. *)
Lemma float_of_int_literal (s : string) (n : Z) :
  int_of_literal s = Some n ->
  exists f, float_of_literal s = Some f
            /\ (f = float_of_Z n \/ (n = 0 /\ f = S754_zero true)).
Proof.
  unfold int_of_literal, parse_int, float_of_literal.
  destruct (take_sign (strip (list_ascii_of_string s))) as [neg l].
  destruct (take_digitpart 0 0 false l) as [[[m cnt] rest] |] eqn:Hd;
    [| discriminate].
  destruct (Nat.ltb int_max_str_digits cnt); [discriminate |].
  destruct cnt as [| k]; [discriminate |].
  destruct rest as [| x rest]; [| discriminate].
  intros H. injection H as <-.
  destruct (take_digitpart_first _ _ _ _ _ Hd) as (c & l' & -> & Hc).
  destruct (digit_starts_no_word c l' Hc) as (-> & -> & ->). cbn [orb].
  assert (Hm : 0 <= m) by (apply (take_digitpart_nonneg _ _ _ _ _ _ _ (Z.le_refl 0) Hd)).
  cbn [Nat.eqb Nat.add].
  change (Z.of_nat 0) with 0. change (- 0) with 0.
  replace (m * 10 ^ 0 + 0) with m by lia.
  unfold float_of_decimal.
  destruct (m =? 0) eqn:Hz.
  - apply Z.eqb_eq in Hz. subst m. eexists. split; [reflexivity |].
    destruct neg; [right; split; reflexivity | left; reflexivity].
  - cbn [Z.leb Z.compare]. eexists. split; [reflexivity |]. left.
    destruct neg; f_equal; lia.
Qed.

Lemma process_numeric_str (self : CSVProcessor.t) (s : string) (w : world) :
  py_in (VStr s) NULL_VALUES = false ->
  process_numeric self (VStr s) w =
  match py_int (VStr s) with
  | Raise e => (Raise e, w)
  | Ok n =>
      (Ok (if float_eq_Z (float_of_Z n) n then VInt n else VFloat (float_of_Z n)), w)
  end.
Proof.
  intros Hnull. unfold process_numeric. rewrite Hnull.
  cbv [bind lift ret].
  destruct (py_int (VStr s)) as [n | e] eqn:Hint; [| reflexivity].
  apply py_int_str in Hint.
  destruct (float_of_int_literal s n Hint) as (f & Hf & Hcase).
  unfold py_float. rewrite Hf.
  destruct Hcase as [-> | [-> ->]].
  - destruct (float_eq_Z (float_of_Z n) n); reflexivity.
  - reflexivity.
Qed.

(** The double nearest to an integer of at most 53 bits is that integer. *)
Lemma digits2_pos_iter (m k : positive) :
  digits2_pos (Pos.iter xO m k) = (digits2_pos m + k)%positive.
Proof.
  induction k as [| k IH] using Pos.peano_ind.
  - simpl. lia.
  - rewrite Pos.iter_succ. cbn [digits2_pos]. rewrite IH. lia.
Qed.

Lemma Zpos_iter_xO (m k : positive) :
  Zpos (Pos.iter xO m k) = Zpos m * 2 ^ Zpos k.
Proof.
  induction k as [| k IH] using Pos.peano_ind.
  - simpl. lia.
  - rewrite Pos.iter_succ, Pos2Z.inj_xO, IH, Pos2Z.inj_succ, Z.pow_succ_r by lia. ring.
Qed.

Lemma shr_fexp_exact (mz : positive) (ez : Z) :
  digits2_pos mz = 53%positive -> -1074 <= ez ->
  shr_fexp prec emax (Zpos mz) ez loc_Exact
  = ({| shr_m := Zpos mz; shr_r := false; shr_s := false |}, ez).
Proof.
  intros Hd He. unfold shr_fexp, Zdigits2, fexp, emin, prec, emax. rewrite Hd.
  replace (Z.max (53 + ez - 53) (3 - 1024 - 53) - ez) with 0 by lia.
  reflexivity.
Qed.

Lemma binary_round_aux_exact (sx : bool) (mz : positive) (ez : Z) :
  digits2_pos mz = 53%positive -> -1074 <= ez <= 971 ->
  binary_round_aux prec emax sx (Zpos mz) ez loc_Exact = S754_finite sx mz ez.
Proof.
  intros Hd He. unfold binary_round_aux.
  rewrite (shr_fexp_exact mz ez Hd) by lia.
  cbn [shr_m loc_of_shr_record round_nearest_even].
  rewrite (shr_fexp_exact mz ez Hd) by lia.
  cbn [shr_m]. unfold emax, prec.
  destruct (Z.leb_spec ez (1024 - 53)); [reflexivity | lia].
Qed.

Lemma binary_round_small (sx : bool) (m : positive) :
  (digits2_pos m <= 53)%positive ->
  exists mz ez,
    binary_round prec emax sx m 0 = S754_finite sx mz ez
    /\ ez <= 0 /\ Zpos mz = Zpos m * 2 ^ (- ez).
Proof.
  intros Hd. unfold binary_round, shl_align, fexp, emin.
  replace (Z.max (Zpos (digits2_pos m) + 0 - prec) (3 - emax - prec))
    with (Zpos (digits2_pos m) - 53) by (unfold prec, emax; lia).
  destruct (Zpos (digits2_pos m) - 53 - 0) as [| k | k] eqn:Hk; try lia.
  - exists m, 0.
    rewrite (binary_round_aux_exact sx m 0) by lia.
    repeat split; lia.
  - exists (Pos.iter xO m k), (Zpos (digits2_pos m) - 53).
    rewrite binary_round_aux_exact.
    + split; [reflexivity |]. split; [lia |].
      rewrite Zpos_iter_xO. f_equal. f_equal. lia.
    + rewrite digits2_pos_iter. lia.
    + lia.
Qed.

Lemma digits2_pos_bound (m : positive) :
  Zpos m < 2 ^ 53 -> (digits2_pos m <= 53)%positive.
Proof.
  assert (H : forall p, 2 ^ (Zpos (digits2_pos p) - 1) <= Zpos p).
  { induction p as [p IH | p IH |]; cbn [digits2_pos].
    - rewrite Pos2Z.inj_succ. replace (Z.succ (Zpos (digits2_pos p)) - 1)
        with (Z.succ (Zpos (digits2_pos p) - 1)) by lia.
      rewrite Z.pow_succ_r by lia. lia.
    - rewrite Pos2Z.inj_succ. replace (Z.succ (Zpos (digits2_pos p)) - 1)
        with (Z.succ (Zpos (digits2_pos p) - 1)) by lia.
      rewrite Z.pow_succ_r by lia. lia.
    - simpl. lia. }
  intros Hm. specialize (H m).
  destruct (Pos.leb_spec (digits2_pos m) 53) as [Hle | Hgt]; [exact Hle |].
  exfalso.
  assert (2 ^ 53 <= 2 ^ (Zpos (digits2_pos m) - 1)) by (apply Z.pow_le_mono_r; lia).
  lia.
Qed.

Lemma float_of_Z_exact (n : Z) :
  Z.abs n <= 2 ^ 53 -> float_eq_Z (float_of_Z n) n = true.
Proof.
  intros Hn.
  destruct (Z.eq_dec (Z.abs n) (2 ^ 53)) as [Heq | Hne].
  - destruct (Z.abs_eq_or_opp n) as [H | H]; rewrite H in Heq.
    + subst n. vm_compute. reflexivity.
    + assert (n = - 2 ^ 53) by lia. subst n. vm_compute. reflexivity.
  - unfold float_of_Z, binary_normalize.
    destruct n as [| m | m]; [reflexivity | |].
    + destruct (binary_round_small false m) as (mz & ez & -> & Hez & Hmz);
        [apply digits2_pos_bound; lia |].
      unfold float_eq_Z, signed.
      destruct (Z.leb_spec 0 ez).
      * assert (ez = 0) by lia. subst ez. simpl in Hmz. apply Z.eqb_eq. lia.
      * apply Z.eqb_eq. lia.
    + destruct (binary_round_small true m) as (mz & ez & -> & Hez & Hmz);
        [apply digits2_pos_bound; lia |].
      unfold float_eq_Z, signed.
      destruct (Z.leb_spec 0 ez).
      * assert (ez = 0) by lia. subst ez. simpl in Hmz. apply Z.eqb_eq. lia.
      * apply Z.eqb_eq.
        change (Zneg m) with (- Zpos m). change (Zneg mz) with (- Zpos mz). lia.
Qed.

Lemma int_literal_not_null (s : string) (n : Z) :
  int_of_literal s = Some n -> py_in (VStr s) NULL_VALUES = false.
Proof.
  intros Hint. unfold py_in, NULL_VALUES. cbn [existsb py_eq].
  destruct (String.eqb_spec s "NaN") as [-> | _]; [vm_compute in Hint; discriminate Hint |].
  destruct (String.eqb_spec s "null") as [-> | _]; [vm_compute in Hint; discriminate Hint |].
  destruct (String.eqb_spec s "") as [-> | _]; [vm_compute in Hint; discriminate Hint |].
  reflexivity.
Qed.



(** X10. A string cell (of code points below 256) that [int] reads as an
    integer of magnitude at most 2^53 is coerced by [process_numeric] to
    that integer, in either mode and without logging. *)
Theorem process_numeric_small_integer :
  forall (self : CSVProcessor.t) (s : string) (n : Z) (w : world),
    int_of_literal s = Some n ->
    Z.abs n <= 2 ^ 53 ->
    process_numeric self (VStr s) w = (Ok (VInt n), w).
Proof.
  intros self s n w Hint Hn.
  rewrite (process_numeric_str self s w (int_literal_not_null s n Hint)).
  rewrite (proj2 (py_int_str s n) Hint).
  rewrite (float_of_Z_exact n Hn). reflexivity.
Qed.

Lemma process_numeric_small_integer_witness :
  process_numeric (strict user_schema) (VStr " -1_000 ") world0
  = (Ok (VInt (-1000)), world0).
Proof.
  apply (process_numeric_small_integer (strict user_schema) " -1_000 " (-1000) world0).
  - vm_compute. reflexivity.
  - vm_compute. discriminate.
Defined.

(** *** Lenient mode: what can stop a run *)









(** *** Plain string fields: rows go through as they are *)



Lemma map_fst_zip_take {A B} (l : list A) (k : list B) :
  map fst (zip l k) = take (List.length k) l.
Proof.
  revert k. induction l as [| a l IH]; intros [| b k]; cbn; try reflexivity.
  f_equal. apply IH.
Qed.






(** *** The table sink: column types and insertion *)

Import DatabaseInsert.

Lemma get_sql_type_supported (definition : field_def) :
  if sql_supported definition
  then exists sql, _get_sql_type definition = Ok sql
  else exists k, _get_sql_type definition = Raise (KeyError k).
Proof.
  unfold sql_supported, _get_sql_type.
  destruct (def_type definition) as [t |]; [| eauto].
  destruct (String.eqb_spec t "string") as [-> | Hs]; cbn [orb]; [eauto |].
  unfold assoc, type_mapping. cbn [List.find fst snd].
  rewrite (String.eqb_sym "integer" t), (String.eqb_sym "boolean" t).
  destruct (String.eqb t "integer"); cbn [orb fmap option_fmap option_map]; [eauto |].
  destruct (String.eqb t "boolean"); cbn [orb fmap option_fmap option_map]; eauto.
Qed.

Lemma column_parts_supported (props : list (string * field_def)) (req : list string) :
  if forallb (fun kd => sql_supported (snd kd)) props
  then exists columns,
         column_parts props req = Ok columns
         /\ List.length columns = List.length props
  else exists k, column_parts props req = Raise (KeyError k).
Proof.
  induction props as [| [column_name details] rest IH]; cbn [forallb snd column_parts].
  - exists []. split; reflexivity.
  - pose proof (get_sql_type_supported details) as Hd.
    destruct (sql_supported details); cbn [andb].
    + destruct Hd as (sql & ->).
      destruct (forallb (fun kd => sql_supported (snd kd)) rest).
      * destruct IH as (columns & -> & Hlen). eexists. split; [reflexivity |].
        cbn [List.length]. rewrite Hlen. reflexivity.
      * destruct IH as (k & ->). eauto.
    + destruct Hd as (k & ->). eauto.
Qed.

(** X13. [create_table] against any database. If some field of the schema
    has no type or a type other than string, integer and boolean, it
    raises [KeyError] before any statement is sent. Otherwise it sends one
    [CREATE TABLE] with one column definition for each field, and raises
    only what the database raises. *)
Theorem create_table_column_types :
  forall (conn : Type)
         (execute_create_table : string -> list string -> conn -> res conn)
         (self : manager conn) (schema : schema_t) (table_name : string),
    if forallb (fun kd => sql_supported (snd kd)) (properties schema)
    then exists columns,
           List.length columns = List.length (properties schema)
           /\ create_table execute_create_table self schema table_name
              = match execute_create_table table_name columns (connection self) with
                | Ok c => Ok {| connection := c;
                                executed := executed self
                                            ++ [CreateTable table_name columns] |}
                | Raise e => Raise e
                end
    else exists k,
           create_table execute_create_table self schema table_name = Raise (KeyError k).
Proof.
  intros conn cre self schema table_name. unfold create_table.
  pose proof (column_parts_supported (properties schema) (required schema)) as H.
  destruct (forallb (fun kd => sql_supported (snd kd)) (properties schema)).
  - destruct H as (columns & -> & Hlen). exists columns. split; [exact Hlen |].
    destruct (cre table_name columns (connection self)); reflexivity.
  - destruct H as (k & ->). eauto.
Qed.

Section InsertOnConsistentDatabase.

Variable conn : Type.
Variable select_table_exists : conn -> string -> res bool.
Variable execute_create_table : string -> list string -> conn -> res conn.
Variable executemany_insert :
  string -> list string -> nat -> list (list pyval) -> conn -> insert_result conn.

Hypothesis created_is_visible :
  forall table_name columns c c',
    execute_create_table table_name columns c = Ok c' ->
    select_table_exists c' table_name = Ok true.

Hypothesis visible_is_insertable :
  forall table_name columns placeholders data c,
    select_table_exists c table_name = Ok true ->
    executemany_insert table_name columns placeholders data c <> UndefinedTable.

Lemma ensured_table_is_visible (self self1 : manager conn) schema table_name :
  ensure_table_exists select_table_exists execute_create_table self schema table_name
  = Ok self1 ->
  select_table_exists (connection self1) table_name = Ok true
  /\ (executed self1 = executed self
      \/ exists columns, executed self1 = executed self ++ [CreateTable table_name columns]).
Proof.
  unfold ensure_table_exists, table_exists.
  destruct (select_table_exists (connection self) table_name) as [[|] | e] eqn:Hsel;
    cbn [negb]; try discriminate.
  - intros H. injection H as <-. split; [exact Hsel | left; reflexivity].
  - unfold create_table.
    destruct (column_parts (properties schema) (required schema)) as [columns | e];
      [| discriminate].
    destruct (execute_create_table table_name columns (connection self)) as [c | e] eqn:Hcre;
      [| discriminate].
    intros H. injection H as <-. cbn [connection executed].
    split; [exact (created_is_visible _ _ _ _ Hcre) | right; eauto].
Qed.

(** X14. [insert_data] on a database that reports a created table as
    existing and never answers [UndefinedTable] for a table it reports:
    the retry after [UndefinedTable] is never taken, so one call always
    returns. It raises only what [ensure_table_exists] raises, sends at
    most one [CREATE TABLE], and that for the table asked for; with an
    empty batch it sends no [INSERT] and returns what
    [ensure_table_exists] returns. *)
Theorem insert_data_returns :
  forall (fuel : nat) (self : manager conn) (table_name : string)
         (data : list (list pyval)) (schema : schema_t),
    exists r : res (manager conn),
      insert_data select_table_exists execute_create_table executemany_insert
        (S fuel) self table_name data schema = Some r
      /\ (data = [] ->
          r = ensure_table_exists select_table_exists execute_create_table
                self schema table_name)
      /\ match r with
         | Raise e =>
             ensure_table_exists select_table_exists execute_create_table
               self schema table_name = Raise e
         | Ok self' =>
             executed self' = executed self
             \/ exists columns,
                  executed self' = executed self ++ [CreateTable table_name columns]
         end.
Proof.
  intros fuel self table_name data schema. cbn [insert_data].
  destruct (ensure_table_exists select_table_exists execute_create_table
              self schema table_name) as [self1 | e] eqn:Hens.
  - destruct (ensured_table_is_visible _ _ _ _ Hens) as [Hvis Hexec].
    destruct data as [| first rest].
    + exists (Ok self1). repeat split; [exact Hexec].
    + pose proof (visible_is_insertable table_name (keys schema) (List.length first)
                    (first :: rest) (connection self1) Hvis) as Hins.
      destruct (executemany_insert table_name (keys schema) (List.length first)
                  (first :: rest) (connection self1)) as [c | |].
      * eexists. split; [reflexivity |]. split; [discriminate | exact Hexec].
      * contradiction.
      * eexists. split; [reflexivity |]. split; [discriminate | exact Hexec].
  - exists (Raise e). destruct data; repeat split.
Qed.

End InsertOnConsistentDatabase.

Lemma names_insert_consistent table_name columns placeholders data c :
  names_select c table_name = Ok true ->
  names_insert table_name columns placeholders data c <> UndefinedTable.
Proof.
  unfold names_select, names_insert. intros H. injection H as ->. discriminate.
Qed.

Lemma insert_data_returns_witness :
  exists r : res (manager (list string)),
    insert_data names_select names_create names_insert 1
      {| connection := []; executed := [] |} "users"
      [[VInt 1; VStr "alice"; VStr "alice@example.com"]] user_schema = Some r
    /\ ([[VInt 1; VStr "alice"; VStr "alice@example.com"]] = [] ->
        r = ensure_table_exists names_select names_create
              {| connection := []; executed := [] |} user_schema "users")
    /\ match r with
       | Raise e =>
           ensure_table_exists names_select names_create
             {| connection := []; executed := [] |} user_schema "users" = Raise e
       | Ok self' =>
           executed self' = executed {| connection := ([] : list string); executed := [] |}
           \/ exists columns,
                executed self'
                = executed {| connection := ([] : list string); executed := [] |}
                  ++ [CreateTable "users" columns]
       end.
Proof.
  exact (insert_data_returns (list string) names_select names_create names_insert
           names_create_visible names_insert_consistent 0
           {| connection := []; executed := [] |} "users"
           [[VInt 1; VStr "alice"; VStr "alice@example.com"]] user_schema).
Defined.

(** *** The typed row *)

Lemma dict_fold_lookup (kvs : list (string * pyval)) :
  forall (m : gmap string pyval) (k : string),
    NoDup (map fst kvs) ->
    (forall v, In (k, v) kvs ->
               fold_left (fun m kv => <[fst kv := snd kv]> m) kvs m !! k = Some v)
    /\ (~ In k (map fst kvs) ->
        fold_left (fun m kv => <[fst kv := snd kv]> m) kvs m !! k = m !! k).
Proof.
  induction kvs as [| [k0 v0] rest IH]; intros m k Hnd; cbn [fold_left map fst snd In].
  - split; [intros v [] | reflexivity].
  - apply NoDup_cons in Hnd as [Hk0 Hnd].
    destruct (IH (<[k0 := v0]> m) k Hnd) as [Hin Hout].
    split.
    + intros v [Heq | Hv].
      * injection Heq as -> ->.
        rewrite Hout; [apply lookup_insert_eq |].
        intros Hc. apply Hk0. apply list_elem_of_In. exact Hc.
      * exact (Hin v Hv).
    + intros Hnot. rewrite Hout by tauto.
      apply lookup_insert_ne. intros ->. apply Hnot. left. reflexivity.
Qed.

(** X15. The typed row built from a processed row, for a schema whose
    field names are distinct: a field name paired with a value by the
    positional [zip] is mapped to that value, and a field name beyond the
    length of the processed row has no entry. *)
Theorem typed_row_lookup :
  forall (self : CSVProcessor.t) (processed_row : list pyval) (key : string),
    NoDup (keys (schema self)) ->
    (forall v, In (key, v) (zip (keys (schema self)) processed_row) ->
               typed_row self processed_row !! key = Some v)
    /\ (~ In key (take (List.length processed_row) (keys (schema self))) ->
        typed_row self processed_row !! key = None).
Proof.
  intros self processed_row key Hnd. unfold typed_row, dict_of_pairs.
  assert (Hfst : map fst (zip (keys (schema self)) processed_row)
                 = take (List.length processed_row) (keys (schema self)))
    by apply map_fst_zip_take.
  assert (Hnd' : NoDup (map fst (zip (keys (schema self)) processed_row))).
  { rewrite Hfst. eapply sublist_NoDup; [exact Hnd | apply sublist_take]. }
  destruct (dict_fold_lookup (zip (keys (schema self)) processed_row) ∅ key Hnd')
    as [Hin Hout].
  split; [exact Hin |].
  intros Hnot. rewrite Hout; [apply lookup_empty |].
  rewrite Hfst. exact Hnot.
Qed.

Lemma typed_row_lookup_witness :
  typed_row (lenient user_schema) [VInt 7; VStr "eve"] !! "username" = Some (VStr "eve")
  /\ typed_row (lenient user_schema) [VInt 7; VStr "eve"] !! "email" = None.
Proof.
  assert (Hnd : NoDup (keys (schema (lenient user_schema)))).
  { apply NoDup_ListNoDup. cbn.
    repeat (constructor; [cbn; intros H; decompose [or] H; try discriminate; assumption |]).
    constructor. }
  split.
  - apply (proj1 (typed_row_lookup (lenient user_schema) [VInt 7; VStr "eve"]
                    "username" Hnd)).
    cbn. right. left. reflexivity.
  - apply (proj2 (typed_row_lookup (lenient user_schema) [VInt 7; VStr "eve"]
                    "email" Hnd)).
    cbn. intros H. decompose [or] H; try discriminate; assumption.
Defined.
